(** * gcm: the FCM v1 delivery client of gaurun

    A shallow embedding of package [gcm]: the legacy [Message] and its
    [validate] method, the per-target [MessageV1] built inside
    [Client.send], the JSON text that [encoding/json] produces for it, and
    the delivery loop of [Client.send] with its calls to the credential
    library and the HTTP transport.

    Go strings are byte strings, so they are [string]s here (one [ascii]
    per byte).  Go's [int] is a [Z]: the code only copies and compares
    [TimeToLive].  A [map[string]interface{}] is a [gmap string Payload].
    Everything that lives outside the package (credential exchange, URL
    parsing, the HTTP round trip, decoding of the response body, encoding
    of the values stored in [Data]) is a field of [Collaborators]. *)

From Stdlib Require Import ZArith NArith Ascii String DecimalString Lia.
From stdpp Require Import base option list strings gmap sorting.

Local Open Scope string_scope.

(** ** Text helpers *)

(** The double-quote byte. *)
Definition dq : ascii := ascii_of_N 34.

(** Reads a text in which JSON's double quotes are written as
    apostrophes. *)
Fixpoint json_text (s : string) : string :=
  match s with
  | EmptyString => EmptyString
  | String c r =>
      String (if Ascii.eqb c (ascii_of_N 39) then dq else c) (json_text r)
  end.

(** [strings.Join]. *)
Fixpoint join (sep : string) (l : list string) : string :=
  match l with
  | [] => ""
  | [x] => x
  | x :: r => x ++ sep ++ join sep r
  end.

(** A string without its first [n] bytes. *)
Fixpoint dropBytes (n : nat) (s : string) : string :=
  match n, s with
  | S k, String _ r => dropBytes k r
  | _, _ => s
  end.

(** [strconv.AppendInt(_, n, 10)], as [encoding/json] writes an [int]. *)
Definition formatInt (n : Z) : string := NilZero.string_of_int (Z.to_int n).

(** ** [encoding/json]: string literals

    [json.NewEncoder] leaves HTML escaping on, so this is
    [appendString(dst, src, true)]. *)

Definition hex (n : N) : ascii :=
  match String.get (N.to_nat n) "0123456789abcdef" with
  | Some c => c
  | None => "0"%char
  end.

(** [htmlSafeSet]: the ASCII bytes written as they are. *)
Definition htmlSafe (b : N) : bool :=
  (32 <=? b)%N && (b <? 128)%N
  && negb ((b =? 34) || (b =? 38) || (b =? 60) || (b =? 62) || (b =? 92))%N.

(** The escape written for an ASCII byte outside [htmlSafeSet]. *)
Definition escapeByte (b : N) : string :=
  if (b =? 92)%N || (b =? 34)%N then String "\" (String (ascii_of_N b) "")
  else if (b =? 8)%N then "\b"
  else if (b =? 12)%N then "\f"
  else if (b =? 10)%N then "\n"
  else if (b =? 13)%N then "\r"
  else if (b =? 9)%N then "\t"
  else "\u00" ++ String (hex (N.shiftr b 4)) (String (hex (N.land b 15)) "").

(** The continuation byte at the head of [s], if it lies in [lo..hi]. *)
Definition contByte (lo hi : N) (s : string) : option (N * string) :=
  match s with
  | String c r =>
      let b := N_of_ascii c in
      if (lo <=? b)%N && (b <=? hi)%N then Some (N.land b 63, r) else None
  | EmptyString => None
  end.

(** How [utf8.DecodeRuneInString] reads a lead byte [b0 >= 0x80]: the
    number of bytes of the sequence, the bits of the rune it carries, and
    the range accepted for the second byte ([first] and [acceptRanges]). *)
Definition leadByte (b0 : N) : option (nat * N * (N * N)) :=
  if (b0 <? 194)%N then None
  else if (b0 <? 224)%N then Some (2%nat, N.land b0 31, (128, 191))%N
  else if (b0 =? 224)%N then Some (3%nat, N.land b0 15, (160, 191))%N
  else if (b0 =? 237)%N then Some (3%nat, N.land b0 15, (128, 159))%N
  else if (b0 <? 240)%N then Some (3%nat, N.land b0 15, (128, 191))%N
  else if (b0 =? 240)%N then Some (4%nat, N.land b0 7, (144, 191))%N
  else if (b0 <? 244)%N then Some (4%nat, N.land b0 7, (128, 191))%N
  else if (b0 =? 244)%N then Some (4%nat, N.land b0 7, (128, 143))%N
  else None.

(** [utf8.DecodeRuneInString] on [String b0 rest] for [b0 >= 0x80]:
    [Some (rune, size)], or [None] for [(RuneError, 1)]. *)
Definition decodeRune (b0 : N) (rest : string) : option (N * nat) :=
  '(sz, hi, (lo1, hi1)) ← leadByte b0;
  '(x1, r1) ← contByte lo1 hi1 rest;
  let c2 := N.lor (N.shiftl hi 6) x1 in
  match sz with
  | 2%nat => Some (c2, 2%nat)
  | _ =>
      '(x2, r2) ← contByte 128 191 r1;
      let c3 := N.lor (N.shiftl c2 6) x2 in
      match sz with
      | 3%nat => Some (c3, 3%nat)
      | _ =>
          '(x3, _) ← contByte 128 191 r2;
          Some (N.lor (N.shiftl c3 6) x3, 4%nat)
      end
  end.

(** The loop of [appendString].  [pending] counts the bytes that remain of
    a rune already decoded; they are copied when [keep] is set and dropped
    when the rune was written as an escape. *)
Fixpoint appendString_loop (keep : bool) (pending : nat) (src : string)
  : string :=
  match src with
  | EmptyString => EmptyString
  | String c rest =>
      match pending with
      | S k =>
          if keep then String c (appendString_loop keep k rest)
          else appendString_loop keep k rest
      | O =>
          let b := N_of_ascii c in
          if (b <? 128)%N then
            if htmlSafe b then String c (appendString_loop true 0 rest)
            else escapeByte b ++ appendString_loop true 0 rest
          else
            match decodeRune b rest with
            | None => "\ufffd" ++ appendString_loop true 0 rest
            | Some (r, size) =>
                if ((r =? 8232) || (r =? 8233))%N then
                  "\u202" ++ String (hex (N.land r 15))
                    (appendString_loop false (Nat.pred size) rest)
                else String c (appendString_loop true (Nat.pred size) rest)
            end
      end
  end.

(** A Go string as a JSON string literal. *)
Definition encodeString (s : string) : string :=
  String dq (appendString_loop true 0 s) ++ String dq "".

(** [{...}] around the members that are present, separated by commas. *)
Definition object (members : list (option string)) : string :=
  "{" ++ join "," (omap id members) ++ "}".

(** One member, [name] being the key of the field's [json] tag. *)
Definition member (name value : string) : string :=
  encodeString name ++ ":" ++ value.

(** The [omitempty] option of a [json] tag. *)
Definition omitempty (isEmpty : bool) (m : string) : option string :=
  if isEmpty then None else Some m.

Definition encodeBool (b : bool) : string := if b then "true" else "false".

Definition isEmptyString (s : string) : bool := String.eqb s "".

(** ** Constants (the [const] blocks of the client) *)

Definition fcmPushPriorityHigh : string := "high".
Definition fcmPushPriorityNormal : string := "normal".
Definition maxRegistrationIDs : Z := 1000.
Definition maxTimeToLive : Z := 2419200.
Definition http_StatusOK : Z := 200.

(** The scope requested in [getAcsessToken]. *)
Definition firebaseMessagingScope : string :=
  "https://www.googleapis.com/auth/firebase.messaging".

(** ** Go slices: [None] is the nil slice *)

Definition slice (A : Type) : Type := option (list A).

Definition isNil {A} (s : slice A) : bool :=
  match s with None => true | Some _ => false end.

Definition elems {A} (s : slice A) : list A := default [] s.

Definition len {A} (s : slice A) : Z := Z.of_nat (length (elems s)).

(** ** What the package takes from outside

    [Response] is the package's response type, declared outside the files
    at hand; the other fields are the libraries the client calls.
    [world] is the state of everything beyond the package (the token
    endpoint, the transport, the FCM server); only a call that goes over
    the network reads or changes it. *)
Class Collaborators : Type := {
  world : Type;
  liberror : Type;
  Response : Type;
  Payload : Type;
  Credentials : Type;
  (** [encoding/json] on one value stored in [Data]. *)
  json_marshalValue : Payload -> liberror + string;
  (** [google.CredentialsFromJSON(ctx, data, scope)]: parses the blob. *)
  google_CredentialsFromJSON : string -> string -> liberror + Credentials;
  (** [creds.TokenSource.Token()]: the exchange itself; the access token. *)
  TokenSource_Token : Credentials -> world -> (liberror + string) * world;
  (** [url.Parse], as [http.NewRequest] calls it: [None] when it parses. *)
  url_Parse : string -> option liberror;
  (** [json.NewDecoder(body).Decode(&response)] on a zero [Response]. *)
  json_Decode : string -> liberror + Response;
  (** How many bytes of the body of its request, which held [body], the
      transport had read when the round trip came back into the world
      [w].  The client of [net/http] reads the body to its end; a
      transport that answers without reading it reads none. *)
  http_bodyRead : world -> string -> nat
}.

Section Model.
Context `{Collaborators}.

(** ** The data model *)

Record Notification : Type := {
  Notification_Title : string;
  Notification_Body : string;
  Notification_ClickAction : string;
  Notification_Tag : string
}.

Record Message : Type := {
  Message_RegistrationIDs : slice string;
  Message_CollapseKey : string;
  Message_Notification : Notification;
  Message_Data : gmap string Payload;
  Message_DelayWhileIdle : bool;
  Message_TimeToLive : Z;
  Message_Priority : string;
  Message_RestrictedPackageName : string;
  Message_DryRun : bool
}.

Record NotificationV1 : Type := {
  NotificationV1_Title : string;
  NotificationV1_Body : string
}.

Record AndroidNotification : Type := {
  AndroidNotification_ClickAction : string;
  AndroidNotification_Tag : string
}.

Record Android : Type := {
  Android_Notification : AndroidNotification;
  Android_Priority : string
}.

Record MessageV1 : Type := {
  MessageV1_Token : string;
  MessageV1_CollapseKey : string;
  MessageV1_Notification : NotificationV1;
  MessageV1_Data : gmap string Payload;
  MessageV1_DelayWhileIdle : bool;
  MessageV1_TimeToLive : Z;
  MessageV1_Android : Android;
  MessageV1_RestrictedPackageName : string;
  MessageV1_DryRun : bool
}.

Record WrappedMessage : Type := {
  WrappedMessage_Message : MessageV1
}.

(** ** Errors

    The values of Go's [error] that the package returns: one constructor
    per [fmt.Errorf] of the package, and [LibError] for an error handed on
    unchanged from a library call. *)
Inductive error : Type :=
| ErrNilMessage              (* the message must not be nil *)
| ErrNilRegistrationIDs      (* the message's RegistrationIDs field must not be nil *)
| ErrNoRegistrationIDs       (* the message must specify at least one registration ID *)
| ErrTooManyRegistrationIDs  (* the message may specify at most 1000 registration IDs *)
| ErrTimeToLive              (* the message's TimeToLive field must be an integer between 0 and 2419200 (4 weeks) *)
| ErrPriority                (* priority must be high or normal *)
| ErrCredentials (cause : liberror)            (* error getting credentials: %v *)
| ErrToken (cause : liberror)                  (* error getting token: %v *)
| ErrInvalidStatus (code : Z) (status : string) (* invalid status code %d: %s *)
| LibError (e : liberror).

(** The errors that [validate] makes. *)
Definition isValidationError (e : error) : bool :=
  match e with
  | ErrNilMessage | ErrNilRegistrationIDs | ErrNoRegistrationIDs
  | ErrTooManyRegistrationIDs | ErrTimeToLive | ErrPriority => true
  | _ => false
  end.

(** The errors that [getAcsessToken] makes. *)
Definition isAuthError (e : error) : bool :=
  match e with
  | ErrCredentials _ | ErrToken _ => true
  | _ => false
  end.

(** ** [Message.validate]; [None] is the nil pointer and the nil error *)
Definition validate (m : option Message) : option error :=
  match m with
  | None => Some ErrNilMessage
  | Some m =>
      if isNil (Message_RegistrationIDs m) then Some ErrNilRegistrationIDs
      else if (len (Message_RegistrationIDs m) =? 0)%Z
      then Some ErrNoRegistrationIDs
      else if (len (Message_RegistrationIDs m) >? maxRegistrationIDs)%Z
      then Some ErrTooManyRegistrationIDs
      else if (Message_TimeToLive m <? 0)%Z
              || (maxTimeToLive <? Message_TimeToLive m)%Z
      then Some ErrTimeToLive
      else if negb (String.eqb (Message_Priority m) "")
              && negb (String.eqb (Message_Priority m) fcmPushPriorityHigh)
              && negb (String.eqb (Message_Priority m) fcmPushPriorityNormal)
      then Some ErrPriority
      else None
  end.

(** ** The [MessageV1] that [send] builds for one registration ID
    (the first statements of its loop body) *)
Definition translate (msg : Message) (token : string) : MessageV1 := {|
  MessageV1_Token := token;
  MessageV1_CollapseKey := Message_CollapseKey msg;
  MessageV1_Notification := {|
    NotificationV1_Title := Notification_Title (Message_Notification msg);
    NotificationV1_Body := Notification_Body (Message_Notification msg) |};
  MessageV1_Data := Message_Data msg;
  MessageV1_DelayWhileIdle := Message_DelayWhileIdle msg;
  MessageV1_TimeToLive := Message_TimeToLive msg;
  MessageV1_Android := {|
    Android_Notification := {|
      AndroidNotification_ClickAction :=
        Notification_ClickAction (Message_Notification msg);
      AndroidNotification_Tag := Notification_Tag (Message_Notification msg) |};
    Android_Priority := Message_Priority msg |};
  MessageV1_RestrictedPackageName := Message_RestrictedPackageName msg;
  MessageV1_DryRun := Message_DryRun msg
|}.

(** ** [encoding/json] on the wire types, field by field in declaration
    order, each under the key and options of its [json] tag *)

Definition encodeNotificationV1 (n : NotificationV1) : string :=
  object [ Some (member "title" (encodeString (NotificationV1_Title n)));
           Some (member "body" (encodeString (NotificationV1_Body n))) ].

Definition encodeAndroidNotification (n : AndroidNotification) : string :=
  object [ Some (member "click_action"
                   (encodeString (AndroidNotification_ClickAction n)));
           Some (member "tag" (encodeString (AndroidNotification_Tag n))) ].

Definition encodeAndroid (a : Android) : string :=
  object [ Some (member "notification"
                   (encodeAndroidNotification (Android_Notification a)));
           omitempty (isEmptyString (Android_Priority a))
             (member "priority" (encodeString (Android_Priority a))) ].

(** The entries of a map in the order the encoder writes them: sorted by
    key, bytewise. *)
Definition sortedEntries (d : gmap string Payload) : list (string * Payload) :=
  merge_sort (λ a b, String.leb a.1 b.1) (map_to_list d).

(** The members of a map; the first value that does not encode gives the
    error. *)
Fixpoint encodeEntries (l : list (string * Payload)) : liberror + list string :=
  match l with
  | [] => inr []
  | (k, v) :: r =>
      match json_marshalValue v with
      | inl e => inl e
      | inr s =>
          match encodeEntries r with
          | inl e => inl e
          | inr ms => inr (member k s :: ms)
          end
      end
  end.

Definition encodeData (d : gmap string Payload) : liberror + string :=
  match encodeEntries (sortedEntries d) with
  | inl e => inl e
  | inr ms => inr ("{" ++ join "," ms ++ "}")
  end.

Definition encodeMessageV1 (m : MessageV1) : liberror + string :=
  match encodeData (MessageV1_Data m) with
  | inl e => inl e
  | inr data =>
      inr (object
        [ Some (member "token" (encodeString (MessageV1_Token m)));
          omitempty (isEmptyString (MessageV1_CollapseKey m))
            (member "collapse_key" (encodeString (MessageV1_CollapseKey m)));
          Some (member "notification"
                  (encodeNotificationV1 (MessageV1_Notification m)));
          omitempty (bool_decide (size (MessageV1_Data m) = 0%nat))
            (member "data" data);
          omitempty (negb (MessageV1_DelayWhileIdle m))
            (member "delay_while_idle" (encodeBool (MessageV1_DelayWhileIdle m)));
          omitempty (MessageV1_TimeToLive m =? 0)%Z
            (member "time_to_live" (formatInt (MessageV1_TimeToLive m)));
          Some (member "android" (encodeAndroid (MessageV1_Android m)));
          omitempty (isEmptyString (MessageV1_RestrictedPackageName m))
            (member "restricted_package_name"
               (encodeString (MessageV1_RestrictedPackageName m)));
          omitempty (negb (MessageV1_DryRun m))
            (member "dry_run" (encodeBool (MessageV1_DryRun m))) ])
  end.

Definition encodeWrappedMessage (w : WrappedMessage) : liberror + string :=
  match encodeMessageV1 (WrappedMessage_Message w) with
  | inl e => inl e
  | inr m => inr (object [ Some (member "message" m) ])
  end.

End Model.

Section Client.
Context `{Collaborators}.

(** ** [net/http] *)

Record http_Request : Type := {
  Request_Method : string;
  Request_URL : string;
  Request_Header : list (string * string);
  Request_Body : string
}.

Record http_Response : Type := {
  Response_StatusCode : Z;
  Response_Status : string;
  Response_Body : string
}.

(** The [Do] method of an [http.Client]: one round trip against the
    world. *)
Definition http_Client : Type :=
  http_Request -> world -> (liberror + http_Response) * world.

(** A [Client] as [NewClient] hands it out: neither the pointer nor its
    [Http] is nil. *)
Record Client : Type := {
  Client_ApiKey : string;
  Client_URL : string;
  Client_Http : http_Client
}.

(** ** Effects

    A call leaves the process only in [TokenSource_Token] and in
    [Client_Http]; each such call is written to the trace with what came
    back, oldest first. *)
Inductive Event : Type :=
| EvToken (creds : Credentials) (res : liberror + string)
| EvDo (req : http_Request) (res : liberror + http_Response).

Record State : Type := {
  st_world : world;
  st_trace : list Event
}.

(** How a call of [Send] or [send] ends: with Go's pair of a [*Response]
    and an [error] ([None] is nil), or in a run-time panic. *)
Inductive outcome : Type :=
| Returned (resp : option Response) (err : option error)
| Panicked.

(** A statement sequence inside a function body: it falls through with a
    value, or leaves the function. *)
Inductive flow (A : Type) : Type :=
| Next (a : A)
| Leave (o : outcome).
Arguments Next {A} a.
Arguments Leave {A} o.

Definition Go (A : Type) : Type := State -> flow A * State.

Definition ret {A} (a : A) : Go A := fun st => (Next a, st).

Definition bind {A B} (m : Go A) (k : A -> Go B) : Go B :=
  fun st =>
    match m st with
    | (Next a, st') => k a st'
    | (Leave o, st') => (Leave o, st')
    end.

Notation "x <- m ;; k" := (bind m (fun x => k))
  (at level 100, m at next level, right associativity).

(** [return nil, err]. *)
Definition returnErr {A} (e : error) : Go A :=
  fun st => (Leave (Returned None (Some e)), st).

Definition panic {A} : Go A := fun st => (Leave Panicked, st).

(** A library call that cannot change the world; its error is handed on. *)
Definition orReturn {A} (r : liberror + A) : Go A :=
  match r with
  | inl e => returnErr (LibError e)
  | inr a => ret a
  end.

(** [*p]. *)
Definition deref {A} (p : option A) : Go A :=
  match p with
  | Some a => ret a
  | None => panic
  end.

(** [getAcsessToken]: Go's pair of a [*string] and an [error]. *)
Definition getAcsessToken (acsJsonData : string) (st : State)
  : (option string * option error) * State :=
  match google_CredentialsFromJSON acsJsonData firebaseMessagingScope with
  | inl err => ((None, Some (ErrCredentials err)), st)
  | inr creds =>
      let '(res, w) := TokenSource_Token creds (st_world st) in
      let st' := {| st_world := w;
                    st_trace := st_trace st ++ [EvToken creds res] |} in
      match res with
      | inl err => ((None, Some (ErrToken err)), st')
      | inr accessToken => ((Some accessToken, None), st')
      end
  end.

(** [encoder.Encode(wrappedMsg)] on [json.NewEncoder(&buf)]: the JSON text
    and a newline are appended to [buf]; nothing is written on an error. *)
Definition Encode (wrappedMsg : WrappedMessage) (buf : string) : Go string :=
  js <- orReturn (encodeWrappedMessage wrappedMsg) ;;
  ret (buf ++ js ++ String (ascii_of_N 10) "").

(** [http.NewRequest("POST", url, &buf)]: fails when the URL does not
    parse; the body of the request is what [buf] holds. *)
Definition http_NewRequest (method url buf : string) : Go http_Request :=
  match url_Parse url with
  | Some err => returnErr (LibError err)
  | None =>
      ret {| Request_Method := method; Request_URL := url;
             Request_Header := []; Request_Body := buf |}
  end.

(** [req.Header.Add]. *)
Definition Header_Add (key value : string) (req : http_Request)
  : http_Request :=
  {| Request_Method := Request_Method req; Request_URL := Request_URL req;
     Request_Header := Request_Header req ++ [(key, value)];
     Request_Body := Request_Body req |}.

(** [c.Http.Do(req)]. *)
Definition Do (c : Client) (req : http_Request) : Go http_Response :=
  fun st =>
    let '(res, w) := Client_Http c req (st_world st) in
    let st' := {| st_world := w; st_trace := st_trace st ++ [EvDo req res] |} in
    match res with
    | inl err => (Leave (Returned None (Some (LibError err))), st')
    | inr resp => (Next resp, st')
    end.

(** What [buf] holds once [Do] has come back: the body of the request
    reads from [buf] itself, so the bytes the transport has read are gone
    from it and the others stay. *)
Definition unread (w : world) (body : string) : string :=
  dropBytes (http_bodyRead w body) body.

Definition bufAfter (req : http_Request) : Go string :=
  fun st => (Next (unread (st_world st) (Request_Body req)), st).

(** The [for _, token := range msg.RegistrationIDs] loop of [send], over
    the registration IDs still to serve.  [buf] and [responses] are the
    variables declared before the loop; nothing in the loop resets
    [buf], so what the transport left unread of one body comes first in
    the next. *)
Fixpoint sendLoop (c : Client) (msg : Message) (acsToken : option string)
    (ids : list string) (buf : string) (responses : list Response)
  : Go (list Response) :=
  match ids with
  | [] => ret responses
  | token :: ids' =>
      let wrappedMsg := {| WrappedMessage_Message := translate msg token |} in
      buf <- Encode wrappedMsg buf ;;
      req <- http_NewRequest "POST" (Client_URL c) buf ;;
      accessToken <- deref acsToken ;;
      let req := Header_Add "Authorization" ("Bearer " ++ accessToken) req in
      let req := Header_Add "Content-Type" "application/json" req in
      resp <- Do c req ;;
      buf <- bufAfter req ;;
      if negb (Response_StatusCode resp =? http_StatusOK)%Z
      then returnErr (ErrInvalidStatus (Response_StatusCode resp)
                        (Response_Status resp))
      else
        response <- orReturn (json_Decode (Response_Body resp)) ;;
        sendLoop c msg acsToken ids' buf (responses ++ [response])
  end.

(** [&responses[0]]: indexing an empty slice panics. *)
Definition firstOf (responses : list Response) : Go Response :=
  match responses with
  | [] => panic
  | r :: _ => ret r
  end.

(** The end of a function body. *)
Definition run (body : Go outcome) (st : State) : outcome * State :=
  match body st with
  | (Next o, st') => (o, st')
  | (Leave o, st') => (o, st')
  end.

(** [Client.send]. *)
Definition send (c : Client) (msg : option Message) (acsJsonData : string)
  : State -> outcome * State :=
  run (fun st =>
    let '((acsToken, err), st) := getAcsessToken acsJsonData st in
    match err with
    | Some e => returnErr e st
    | None =>
        (msg <- deref msg ;;
         responses <- sendLoop c msg acsToken
                        (elems (Message_RegistrationIDs msg)) "" [] ;;
         r <- firstOf responses ;;
         ret (Returned (Some r) err)) st
    end).

(** [Client.Send]. *)
Definition Send (c : Client) (msg : option Message) (acsJsonData : string)
    (st : State) : outcome * State :=
  match validate msg with
  | Some err => (Returned None (Some err), st)
  | None => send c msg acsJsonData st
  end.

(** ** Reading a trace *)

(** The requests handed to the transport, in order. *)
Definition requests (tr : list Event) : list http_Request :=
  omap (fun ev => match ev with EvDo req _ => Some req | _ => None end) tr.

(** What came back for each request, in order. *)
Definition replies (tr : list Event) : list (liberror + http_Response) :=
  omap (fun ev => match ev with EvDo _ res => Some res | _ => None end) tr.

(** A reply with status 200 whose body decodes to [r]. *)
Definition delivered (res : liberror + http_Response) (r : Response) : Prop :=
  exists resp, res = inr resp
    /\ Response_StatusCode resp = http_StatusOK
    /\ json_Decode (Response_Body resp) = inr r.

(** The request that [send] makes for one registration ID: the POST of the
    wrapped [MessageV1] with the bearer token. *)
Definition requestFor (c : Client) (msg : Message) (accessToken : string)
    (token : string) (req : http_Request) : Prop :=
  exists js,
    encodeWrappedMessage {| WrappedMessage_Message := translate msg token |}
      = inr js
    /\ req = {| Request_Method := "POST";
                Request_URL := Client_URL c;
                Request_Header :=
                  [("Authorization", "Bearer " ++ accessToken);
                   ("Content-Type", "application/json")];
                Request_Body := js ++ String (ascii_of_N 10) "" |}.

(** The same request when [buf] still held [left] before the message was
    encoded into it: the body is [left] and then the message. *)
Definition requestWith (c : Client) (msg : Message) (accessToken : string)
    (left token : string) (req : http_Request) : Prop :=
  exists js,
    encodeWrappedMessage {| WrappedMessage_Message := translate msg token |}
      = inr js
    /\ req = {| Request_Method := "POST";
                Request_URL := Client_URL c;
                Request_Header :=
                  [("Authorization", "Bearer " ++ accessToken);
                   ("Content-Type", "application/json")];
                Request_Body := left ++ js ++ String (ascii_of_N 10) "" |}.

(** The transport reads the body of every request to its end. *)
Definition readsBodies : Prop :=
  forall (w : world) (body : string),
    (String.length body <= http_bodyRead w body)%nat.

End Client.

Arguments Next {_ A} a.
Arguments Leave {_ A} o.

Section Runs.
Context `{Collaborators}.

(** ** The runs of the loop

    [loopTrace c msg accessToken ids buf responses evs fl]: started with
    the registration IDs [ids] to serve, [buf] left in the buffer and
    [responses] collected so far, the loop of [send] makes the calls
    [evs] and ends as [fl].  One rule per way through the loop body. *)
Inductive loopTrace (c : Client) (msg : Message) (accessToken : string)
  : list string -> string -> list Response -> list Event
    -> flow (list Response) -> Prop :=
| loop_end buf responses :
    loopTrace c msg accessToken [] buf responses [] (Next responses)
| loop_encode_error token ids buf responses err :
    encodeWrappedMessage {| WrappedMessage_Message := translate msg token |}
      = inl err ->
    loopTrace c msg accessToken (token :: ids) buf responses []
      (Leave (Returned None (Some (LibError err))))
| loop_request_error token ids buf responses js err :
    encodeWrappedMessage {| WrappedMessage_Message := translate msg token |}
      = inr js ->
    url_Parse (Client_URL c) = Some err ->
    loopTrace c msg accessToken (token :: ids) buf responses []
      (Leave (Returned None (Some (LibError err))))
| loop_do_error token ids buf responses req err :
    requestWith c msg accessToken buf token req ->
    loopTrace c msg accessToken (token :: ids) buf responses
      [EvDo req (inl err)]
      (Leave (Returned None (Some (LibError err))))
| loop_status_error token ids buf responses req resp :
    requestWith c msg accessToken buf token req ->
    Response_StatusCode resp <> http_StatusOK ->
    loopTrace c msg accessToken (token :: ids) buf responses
      [EvDo req (inr resp)]
      (Leave (Returned None
                (Some (ErrInvalidStatus (Response_StatusCode resp)
                         (Response_Status resp)))))
| loop_decode_error token ids buf responses req resp err :
    requestWith c msg accessToken buf token req ->
    Response_StatusCode resp = http_StatusOK ->
    json_Decode (Response_Body resp) = inl err ->
    loopTrace c msg accessToken (token :: ids) buf responses
      [EvDo req (inr resp)]
      (Leave (Returned None (Some (LibError err))))
| loop_next token ids buf responses req resp response w evs fl :
    requestWith c msg accessToken buf token req ->
    delivered (inr resp) response ->
    loopTrace c msg accessToken ids (unread w (Request_Body req))
      (responses ++ [response]) evs fl ->
    loopTrace c msg accessToken (token :: ids) buf responses
      (EvDo req (inr resp) :: evs) fl.

(** ** The text on the wire, from the fields of the message

    What the service is to read for one registration ID, written down
    from the message itself: the token, the fields copied over, title and
    body under [notification], click action, tag and priority under
    [android]; [data] is the text of the message's [Data].  Empty fields
    of the kinds that [omitempty] drops are left out. *)
Definition wireText (m : Message) (token data : string) : string :=
  object
    [ Some (member "message" (object
        [ Some (member "token" (encodeString token));
          omitempty (isEmptyString (Message_CollapseKey m))
            (member "collapse_key" (encodeString (Message_CollapseKey m)));
          Some (member "notification" (object
            [ Some (member "title"
                      (encodeString
                         (Notification_Title (Message_Notification m))));
              Some (member "body"
                      (encodeString
                         (Notification_Body (Message_Notification m)))) ]));
          omitempty (bool_decide (size (Message_Data m) = 0%nat))
            (member "data" data);
          omitempty (negb (Message_DelayWhileIdle m))
            (member "delay_while_idle" "true");
          omitempty (Message_TimeToLive m =? 0)%Z
            (member "time_to_live" (formatInt (Message_TimeToLive m)));
          Some (member "android" (object
            [ Some (member "notification" (object
                [ Some (member "click_action"
                          (encodeString
                             (Notification_ClickAction
                                (Message_Notification m))));
                  Some (member "tag"
                          (encodeString
                             (Notification_Tag (Message_Notification m)))) ]));
              omitempty (isEmptyString (Message_Priority m))
                (member "priority" (encodeString (Message_Priority m))) ]));
          omitempty (isEmptyString (Message_RestrictedPackageName m))
            (member "restricted_package_name"
               (encodeString (Message_RestrictedPackageName m)));
          omitempty (negb (Message_DryRun m)) (member "dry_run" "true") ])) ].

(** The POST that carries [body] with the bearer token. *)
Definition wireRequest (c : Client) (accessToken body : string)
  : http_Request :=
  {| Request_Method := "POST";
     Request_URL := Client_URL c;
     Request_Header := [("Authorization", "Bearer " ++ accessToken);
                        ("Content-Type", "application/json")];
     Request_Body := body |}.

(** ** The rules of validation as the specification lists them *)

(** Rules 2 to 6 on a message that is there, each with its error. *)
Definition validation_rules : list ((Message -> bool) * error) :=
  [ (fun m => negb (isNil (Message_RegistrationIDs m)),
     ErrNilRegistrationIDs);
    (fun m => (1 <=? len (Message_RegistrationIDs m))%Z,
     ErrNoRegistrationIDs);
    (fun m => (len (Message_RegistrationIDs m) <=? 1000)%Z,
     ErrTooManyRegistrationIDs);
    (fun m => (0 <=? Message_TimeToLive m)%Z
              && (Message_TimeToLive m <=? 2419200)%Z,
     ErrTimeToLive);
    (fun m => bool_decide (Message_Priority m ∈ [""; "high"; "normal"]),
     ErrPriority) ].

(** Checked in order, first failure wins. *)
Fixpoint first_failure (rules : list ((Message -> bool) * error))
    (m : Message) : option error :=
  match rules with
  | [] => None
  | (holds, err) :: rest =>
      if holds m then first_failure rest m else Some err
  end.

(** Rule 1, then the others. *)
Definition validate_spec (m : option Message) : option error :=
  match m with
  | None => Some ErrNilMessage
  | Some m => first_failure validation_rules m
  end.

(** ** The scenario of the specification *)

Definition messageWith (ids : slice string) (timeToLive : Z)
    (priority : string) : Message := {|
  Message_RegistrationIDs := ids;
  Message_CollapseKey := "";
  Message_Notification := {|
    Notification_Title := "Hi"; Notification_Body := "there";
    Notification_ClickAction := ""; Notification_Tag := "" |};
  Message_Data := ∅;
  Message_DelayWhileIdle := false;
  Message_TimeToLive := timeToLive;
  Message_Priority := priority;
  Message_RestrictedPackageName := "";
  Message_DryRun := false
|}.

Definition messageTo (ids : slice string) : Message :=
  messageWith ids 0 "high".

(** The message of the scenario: one target, a title, a body, high
    priority. *)
Definition scenarioMessage : Message := messageTo (Some ["tok1"]).

(** The body of the request that carries the scenario's message. *)
Definition scenarioBody : string :=
  json_text "{'message':{'token':'tok1','notification':{'title':'Hi','body':'there'},'android':{'notification':{'click_action':'','tag':''},'priority':'high'}}}"
  ++ String (ascii_of_N 10) "".

(** The body that the scenario of the specification shows. *)
Definition scenarioBodyInSpec : string :=
  json_text "{'message':{'token':'tok1','notification':{'title':'Hi','body':'there'},'android':{'notification':{},'priority':'high'}}}".

(** The request that carries the scenario's message. *)
Definition scenarioRequest (c : Client) (accessToken : string)
  : http_Request :=
  {| Request_Method := "POST";
     Request_URL := Client_URL c;
     Request_Header := [("Authorization", "Bearer " ++ accessToken);
                        ("Content-Type", "application/json")];
     Request_Body := scenarioBody |}.

(** How [send] ends once the loop is over: [return &responses[0], err]
    after a loop that ran to its end, the early return otherwise. *)
Definition finish (fl : flow (list Response)) : outcome :=
  match fl with
  | Next [] => Panicked
  | Next (r :: _) => Returned (Some r) None
  | Leave o => o
  end.

(** What the caller holds after a call: the results handed back. *)
Definition results_returned (o : outcome) : list Response :=
  match o with
  | Returned (Some r) _ => [r]
  | _ => []
  end.

End Runs.

(** ** A scripted world

    The server counts the requests it has answered; the [n]-th message
    it accepts is named [projects/x/messages/n].  A [Response] is kept as
    the text of the JSON object it was decoded from, and the values of
    [Data] are strings. *)
Definition FCMSendEndpoint : string :=
  "https://fcm.googleapis.com/v1/projects/cansukepush/messages:send".

Definition scripted : Collaborators := {|
  world := nat;
  liberror := string;
  Response := string;
  Payload := string;
  Credentials := string;
  json_marshalValue := fun v => inr (encodeString v);
  google_CredentialsFromJSON := fun data scope =>
    if String.prefix "{" data then inr data
    else inl "invalid character looking for beginning of value";
  TokenSource_Token := fun creds w =>
    if String.eqb creds "{}" then (inl "oauth2: cannot fetch token", w)
    else (inr "ya29.token", w);
  url_Parse := fun u =>
    if String.prefix ":" u then Some "missing protocol scheme" else None;
  json_Decode := fun body =>
    if String.prefix "{" body then inr body
    else inl "invalid character looking for beginning of value";
  http_bodyRead := fun _ body => String.length body
|}.

Section Scripted.
#[local] Existing Instance scripted.

Definition messageName (n : nat) : string :=
  json_text "{'name':'projects/x/messages/" ++ formatInt (Z.of_nat n)
  ++ json_text "'}".

(** A server that accepts every message. *)
Definition accepting : http_Client := fun req n =>
  (inr {| Response_StatusCode := 200; Response_Status := "200 OK";
          Response_Body := messageName (S n) |}, S n).

(** A server that refuses its [k]-th request. *)
Definition refusing (k : nat) : http_Client := fun req n =>
  if Nat.eqb (S n) k then
    (inr {| Response_StatusCode := 500;
            Response_Status := "500 Internal Server Error";
            Response_Body := "" |}, S n)
  else accepting req n.

Definition clientOf (transport : http_Client) : Client :=
  {| Client_ApiKey := "key"; Client_URL := FCMSendEndpoint;
     Client_Http := transport |}.

Definition serviceAccount : string := json_text "{'type':'service_account'}".

Definition start : State := {| st_world := 0%nat; st_trace := [] |}.

(** The state once the token exchange has ended with [res]. *)
Definition afterToken (creds : string) (res : string + string) : State :=
  {| st_world := 0%nat; st_trace := [EvToken creds res] |}.

(** What the accepting server answers first. *)
Definition firstReply : http_Response :=
  {| Response_StatusCode := 200; Response_Status := "200 OK";
     Response_Body := messageName 1 |}.

(** What the refusing server answers when it refuses. *)
Definition refusal : http_Response :=
  {| Response_StatusCode := 500;
     Response_Status := "500 Internal Server Error";
     Response_Body := "" |}.

End Scripted.

(** ** Making messages and clients *)

Section Construction.
Context `{Collaborators}.

(** [NewMessage(data, regIDs...)].  The variadic parameter is the slice
    the callee sees: nil when the call names no registration ID, the IDs
    named otherwise, or the very slice of a call [NewMessage(data, s...)].
    The other fields have their zero values. *)
Definition NewMessage (data : gmap string Payload) (regIDs : slice string)
  : Message := {|
  Message_RegistrationIDs := regIDs;
  Message_CollapseKey := "";
  Message_Notification := {|
    Notification_Title := ""; Notification_Body := "";
    Notification_ClickAction := ""; Notification_Tag := "" |};
  Message_Data := data;
  Message_DelayWhileIdle := false;
  Message_TimeToLive := 0;
  Message_Priority := "";
  Message_RestrictedPackageName := "";
  Message_DryRun := false
|}.

(** The values of Go's [error] that [NewClient] makes; no other function
    of the package returns them. *)
Inductive config_error : Type :=
| ErrMissingURL                 (* missing FCM endpoint url *)
| ErrMissingAPIKey              (* missing API Key *)
| ErrParseURL (urlString : string) (cause : liberror).
                                (* failed to parse URL %q: %s *)

(** [NewClient]: Go's pair of a [*Client] and an [error].
    [http_DefaultClient] is the value of [http.DefaultClient] at the
    call. *)
Definition NewClient (http_DefaultClient : http_Client)
    (urlString apiKey : string) : option Client * option config_error :=
  if (String.length urlString =? 0)%nat then (None, Some ErrMissingURL)
  else if (String.length apiKey =? 0)%nat then (None, Some ErrMissingAPIKey)
  else
    match url_Parse urlString with
    | Some err => (None, Some (ErrParseURL urlString err))
    | None =>
        (Some {| Client_URL := urlString; Client_ApiKey := apiKey;
                 Client_Http := http_DefaultClient |}, None)
    end.

(** The token exchanges of a trace, in order. *)
Definition tokenCalls (tr : list Event)
  : list (Credentials * (liberror + string)) :=
  omap (fun ev => match ev with
                  | EvToken creds res => Some (creds, res)
                  | _ => None
                  end) tr.

(** The four ways a call of [Send] can go, each with the calls it makes
    and how it ends: the message is refused; the credentials do not
    parse; the exchange is denied; the loop is run. *)
Inductive SendRun (c : Client) (msg : option Message)
  : list Event -> outcome -> Prop :=
| run_invalid err :
    validate msg = Some err ->
    SendRun c msg [] (Returned None (Some err))
| run_bad_credentials err :
    validate msg = None ->
    SendRun c msg [] (Returned None (Some (ErrCredentials err)))
| run_denied creds err :
    validate msg = None ->
    SendRun c msg [EvToken creds (inl err)]
      (Returned None (Some (ErrToken err)))
| run_loop m creds accessToken evs fl :
    msg = Some m ->
    validate msg = None ->
    loopTrace c m accessToken (elems (Message_RegistrationIDs m)) "" []
      evs fl ->
    SendRun c msg (EvToken creds (inr accessToken) :: evs) (finish fl).

End Construction.

(** ** A scripted world with values that do not encode

    As [scripted], but a value of [Data] is either a string or [None],
    which stands for a Go value that [encoding/json] refuses (a channel,
    a function). *)
Definition scriptedStrict : Collaborators := {|
  world := nat;
  liberror := string;
  Response := string;
  Payload := option string;
  Credentials := string;
  json_marshalValue := fun v =>
    match v with
    | Some s => inr (encodeString s)
    | None => inl "json: unsupported type: chan int"
    end;
  google_CredentialsFromJSON := @google_CredentialsFromJSON scripted;
  TokenSource_Token := @TokenSource_Token scripted;
  url_Parse := @url_Parse scripted;
  json_Decode := @json_Decode scripted;
  http_bodyRead := @http_bodyRead scripted
|}.

Section Strict.
#[local] Existing Instance scriptedStrict.

(** The accepting server, for the strict world. *)
Definition acceptingStrict : http_Client := fun req n =>
  (inr {| Response_StatusCode := 200; Response_Status := "200 OK";
          Response_Body := messageName (S n) |}, S n).

(** A message whose [Data] holds a value that does not encode. *)
Definition messageWithChannel : Message :=
  NewMessage (<["ch" := None]> ∅) (Some ["A"]).

Definition startStrict : State := {| st_world := 0%nat; st_trace := [] |}.

Definition clientStrict : Client :=
  {| Client_ApiKey := "key"; Client_URL := FCMSendEndpoint;
     Client_Http := acceptingStrict |}.

(** The state once the token exchange has given its token. *)
Definition afterTokenStrict : State :=
  {| st_world := 0%nat;
     st_trace := [EvToken serviceAccount (inr "ya29.token")] |}.

End Strict.

(** ** A scripted world whose transport answers without reading

    As [scripted], but the transport leaves the body of every request
    unread. *)
Definition scriptedUnread : Collaborators := {|
  world := nat;
  liberror := string;
  Response := string;
  Payload := string;
  Credentials := string;
  json_marshalValue := @json_marshalValue scripted;
  google_CredentialsFromJSON := @google_CredentialsFromJSON scripted;
  TokenSource_Token := @TokenSource_Token scripted;
  url_Parse := @url_Parse scripted;
  json_Decode := @json_Decode scripted;
  http_bodyRead := fun _ _ => 0%nat
|}.

Section Unread.
#[local] Existing Instance scriptedUnread.

(** The accepting server behind that transport. *)
Definition acceptingUnread : http_Client := fun req n =>
  (inr {| Response_StatusCode := 200; Response_Status := "200 OK";
          Response_Body := messageName (S n) |}, S n).

Definition clientUnread : Client :=
  {| Client_ApiKey := "key"; Client_URL := FCMSendEndpoint;
     Client_Http := acceptingUnread |}.

Definition startUnread : State := {| st_world := 0%nat; st_trace := [] |}.

(** The text of the scenario's kind of message for one registration ID,
    with its newline. *)
Definition lineFor (token : string) : string :=
  json_text "{'message':{'token':'" ++ token
  ++ json_text "','notification':{'title':'Hi','body':'there'},'android':{'notification':{'click_action':'','tag':''},'priority':'high'}}}"
  ++ String (ascii_of_N 10) "".

End Unread.

Section Failures.
#[local] Existing Instance scripted.

(** A connection that breaks at the [k]-th request. *)
Definition dropping (k : nat) : http_Client := fun req n =>
  if Nat.eqb (S n) k then (inl "connection reset by peer", S n)
  else accepting req n.

(** A server whose [k]-th answer has status 200 and a body that is no
    JSON. *)
Definition garbling (k : nat) : http_Client := fun req n =>
  if Nat.eqb (S n) k then
    (inr {| Response_StatusCode := 200; Response_Status := "200 OK";
            Response_Body := "<html>" |}, S n)
  else accepting req n.

(** The client of [clientOf], under another API key. *)
Definition clientWithKey (apiKey : string) (transport : http_Client)
  : Client :=
  {| Client_ApiKey := apiKey; Client_URL := FCMSendEndpoint;
     Client_Http := transport |}.

End Failures.

(** * Properties *)

Local Open Scope list_scope.

Section Theory.
Context `{Collaborators}.

(** ** The loop *)

(** One turn of the loop, written out. *)
Lemma sendLoop_cons c msg accessToken token ids buf responses st :
  sendLoop c msg (Some accessToken) (token :: ids) buf responses st =
  match encodeWrappedMessage
          {| WrappedMessage_Message := translate msg token |} with
  | inl err => (Leave (Returned None (Some (LibError err))), st)
  | inr js =>
      match url_Parse (Client_URL c) with
      | Some err => (Leave (Returned None (Some (LibError err))), st)
      | None =>
          let req :=
            {| Request_Method := "POST"; Request_URL := Client_URL c;
               Request_Header :=
                 [("Authorization", "Bearer " +:+ accessToken);
                  ("Content-Type", "application/json")];
               Request_Body := buf +:+ js +:+ String (ascii_of_N 10) "" |} in
          let '(res, w) := Client_Http c req (st_world st) in
          let st' := {| st_world := w;
                        st_trace := st_trace st ++ [EvDo req res] |} in
          match res with
          | inl err => (Leave (Returned None (Some (LibError err))), st')
          | inr resp =>
              if (Response_StatusCode resp =? http_StatusOK)%Z then
                match json_Decode (Response_Body resp) with
                | inl err =>
                    (Leave (Returned None (Some (LibError err))), st')
                | inr response =>
                    sendLoop c msg (Some accessToken) ids
                      (unread w (Request_Body req))
                      (responses ++ [response]) st'
                end
              else
                (Leave (Returned None
                          (Some (ErrInvalidStatus (Response_StatusCode resp)
                                   (Response_Status resp)))), st')
          end
      end
  end.
Proof.
  cbn [sendLoop]. unfold bind at 1. unfold Encode, bind at 1.
  destruct (encodeWrappedMessage _) as [err|js]; cbn; [reflexivity|].
  unfold bind at 1, http_NewRequest.
  destruct (url_Parse _) as [err|]; cbn; [reflexivity|].
  unfold bind at 1, Do, Header_Add; cbn.
  destruct (Client_Http c _ _) as [[err|resp] w]; cbn; [reflexivity|].
  destruct (Response_StatusCode resp =? http_StatusOK)%Z; cbn; [|reflexivity].
  unfold bind at 1.
  destruct (json_Decode _) as [err|response]; reflexivity.
Qed.

(** Every run of the loop is one of the runs of [loopTrace]. *)
Lemma sendLoop_loopTrace c msg accessToken ids :
  forall buf responses st fl st',
    sendLoop c msg (Some accessToken) ids buf responses st = (fl, st') ->
    exists evs, st_trace st' = st_trace st ++ evs
                /\ loopTrace c msg accessToken ids buf responses evs fl.
Proof.
  induction ids as [|token ids IH]; intros buf responses st fl st' Hrun.
  - cbn in Hrun. injection Hrun as <- <-. exists [].
    split; [by rewrite app_nil_r | constructor].
  - rewrite sendLoop_cons in Hrun.
    destruct (encodeWrappedMessage _) as [err|js] eqn:Hjs.
    { injection Hrun as <- <-. exists []. rewrite app_nil_r.
      split; [done | by constructor]. }
    destruct (url_Parse _) as [err|] eqn:Hurl.
    { injection Hrun as <- <-. exists []. rewrite app_nil_r.
      split; [done | by econstructor]. }
    cbv zeta in Hrun.
    destruct (Client_Http c _ _) as [[err|resp] w] eqn:Hdo.
    { injection Hrun as <- <-. eexists. split; [reflexivity|].
      apply loop_do_error. by exists js. }
    destruct (Response_StatusCode resp =? http_StatusOK)%Z eqn:Hcode.
    2: { injection Hrun as <- <-. eexists. split; [reflexivity|].
         apply loop_status_error; [by exists js | by apply Z.eqb_neq]. }
    apply Z.eqb_eq in Hcode.
    destruct (json_Decode _) as [err|response] eqn:Hdec.
    { injection Hrun as <- <-. eexists. split; [reflexivity|].
      apply loop_decode_error; [by exists js | done..]. }
    apply IH in Hrun as (evs & Htr & Hloop). cbn in Htr.
    exists (EvDo
              {| Request_Method := "POST"; Request_URL := Client_URL c;
                 Request_Header :=
                   [("Authorization", "Bearer " +:+ accessToken);
                    ("Content-Type", "application/json")];
                 Request_Body :=
                   buf +:+ js +:+ String (ascii_of_N 10) "" |}
              (inr resp) :: evs).
    split; [by rewrite Htr, <- app_assoc|].
    eapply loop_next; [by exists js | by exists resp | exact Hloop].
Qed.

(** A reply is delivered as at most one result. *)
Lemma delivered_inj res r1 r2 : delivered res r1 -> delivered res r2 -> r1 = r2.
Proof.
  intros (resp1 & -> & _ & H1) (resp2 & [= <-] & _ & H2). congruence.
Qed.

(** Nothing is left of a body that was read to its end. *)
Lemma dropBytes_all n s : (String.length s <= n)%nat -> dropBytes n s = "".
Proof.
  revert n. induction s as [|a s IH]; intros [|n] Hn; cbn in *;
    [done | done | lia | apply IH; lia].
Qed.

Lemma unread_readsBodies w body : readsBodies -> unread w body = "".
Proof. intros Hread. apply dropBytes_all, Hread. Qed.

(** The loop only makes requests, one per registration ID reached; the
    body of each ends with the message built for that ID. *)
Lemma loopTrace_requests c msg accessToken ids buf responses evs fl :
  loopTrace c msg accessToken ids buf responses evs fl ->
  length (requests evs) = length evs
  /\ Forall2 (fun token req =>
                exists left, requestWith c msg accessToken left token req)
       (take (length evs) ids) (requests evs).
Proof.
  unfold requests.
  induction 1 as [ | | | | | | token ids buf responses req resp response w evs fl Hreq Hd Hloop IH]; cbn;
    try (split; [reflexivity | by eauto using Forall2_nil, Forall2_cons]).
  destruct IH as [IHn IHr]. split; [by rewrite IHn | constructor; eauto].
Qed.

(** With a transport that reads its bodies, and an empty buffer to start
    with, the body of each request is the message built for its ID and
    nothing else. *)
Lemma loopTrace_requests_read c msg accessToken ids responses evs fl :
  readsBodies ->
  loopTrace c msg accessToken ids "" responses evs fl ->
  Forall2 (requestFor c msg accessToken)
    (take (length evs) ids) (requests evs).
Proof.
  intros Hread. unfold requests.
  remember "" as buf eqn:Hbuf.
  induction 1 as [ | | | | | | token ids buf responses req resp response w evs fl Hreq Hd Hloop IH]; subst; cbn;
    try (by eauto using Forall2_nil, Forall2_cons).
  constructor; [exact Hreq|]. apply IH. by apply unread_readsBodies.
Qed.

(** A loop that runs to its end has collected one result per registration
    ID, each decoded from the reply to its request. *)
Lemma loopTrace_Next c msg accessToken ids buf responses evs fl :
  loopTrace c msg accessToken ids buf responses evs fl ->
  forall all, fl = Next all ->
    exists new, all = responses ++ new
                /\ Forall2 delivered (replies evs) new
                /\ length evs = length ids.
Proof.
  unfold replies.
  induction 1 as [ | | | | | | token ids buf responses req resp response w evs fl Hreq Hd Hloop IH]; intros all Hfl;
    try discriminate.
  - injection Hfl as <-. exists []. by rewrite app_nil_r.
  - destruct (IH _ Hfl) as (new & -> & Hnew & Hlen).
    exists (response :: new). cbn.
    split; [by rewrite <- app_assoc|]. split; [by constructor | by rewrite Hlen].
Qed.

(** A loop that is left early is left by [return nil, err]. *)
Lemma loopTrace_Leave c msg accessToken ids buf responses evs fl :
  loopTrace c msg accessToken ids buf responses evs fl ->
  forall o, fl = Leave o -> exists err, o = Returned None (Some err).
Proof.
  induction 1; intros o Hfl; try discriminate; try (injection Hfl as <-);
    eauto.
Qed.

(** The loop never serves more registration IDs than there are. *)
Lemma loopTrace_length c msg accessToken ids buf responses evs fl :
  loopTrace c msg accessToken ids buf responses evs fl ->
  (length evs <= length ids)%nat.
Proof. induction 1; cbn; lia. Qed.

(** A reply with another status than 200 is the last thing the loop
    sees. *)
Lemma loopTrace_status c msg accessToken ids buf responses evs fl :
  loopTrace c msg accessToken ids buf responses evs fl ->
  forall k resp,
    replies evs !! k = Some (inr resp) ->
    Response_StatusCode resp <> http_StatusOK ->
    fl = Leave (Returned None
                  (Some (ErrInvalidStatus (Response_StatusCode resp)
                           (Response_Status resp))))
    /\ length evs = S k.
Proof.
  unfold replies.
  induction 1 as [ | | | | | | token ids buf responses req resp response w evs fl Hreq Hd Hloop IH]; intros k resp' Hk Hcode;
    cbn in Hk; try done.
  - destruct k; cbn in Hk; done.
  - destruct k; cbn in Hk; [|done]. injection Hk as <-. done.
  - destruct k; cbn in Hk; [|done]. injection Hk as <-. done.
  - destruct k; cbn in Hk.
    + injection Hk as <-. destruct Hd as (? & [= <-] & ? & _). done.
    + destruct (IH _ _ Hk Hcode) as [-> Hlen]. cbn. by rewrite Hlen.
Qed.

(** When every registration ID got a reply that was delivered, the loop
    ran to its end. *)
Lemma loopTrace_all_delivered c msg accessToken ids buf responses evs fl :
  loopTrace c msg accessToken ids buf responses evs fl ->
  forall new,
    Forall2 delivered (replies evs) new ->
    length new = length ids ->
    fl = Next (responses ++ new).
Proof.
  unfold replies.
  induction 1 as [ | | | | | | token ids buf responses req resp response w evs fl Hreq Hd Hloop IH]; intros new Hnew Hlen;
    cbn in Hnew.
  - destruct new; [by rewrite app_nil_r | done].
  - inversion Hnew; subst; discriminate.
  - inversion Hnew; subst; discriminate.
  - apply Forall2_cons_inv_l in Hnew as (? & ? & (? & [=] & _) & _).
  - apply Forall2_cons_inv_l in Hnew as (? & ? & (? & [= <-] & ? & _) & _).
    done.
  - apply Forall2_cons_inv_l in Hnew as (? & ? & (? & [= <-] & ? & ?) & _).
    congruence.
  - apply Forall2_cons_inv_l in Hnew as (r & new' & Hr & Hrest & ->).
    rewrite (delivered_inj _ _ _ Hr Hd).
    rewrite (IH new' Hrest); [by rewrite <- app_assoc | cbn in Hlen; lia].
Qed.

(** ** Around the loop *)

(** What validation leaves to rely on. *)
Lemma validate_None_inv m :
  validate (Some m) = None ->
  isNil (Message_RegistrationIDs m) = false
  /\ (1 <= len (Message_RegistrationIDs m) <= maxRegistrationIDs)%Z
  /\ (0 <= Message_TimeToLive m <= maxTimeToLive)%Z
  /\ (Message_Priority m = "" \/ Message_Priority m = fcmPushPriorityHigh
      \/ Message_Priority m = fcmPushPriorityNormal).
Proof.
  unfold validate.
  destruct (isNil _); [done|].
  destruct (Z.eqb_spec (len (Message_RegistrationIDs m)) 0); [done|].
  destruct (Z.gtb_spec (len (Message_RegistrationIDs m)) maxRegistrationIDs);
    [done|].
  destruct (Z.ltb_spec (Message_TimeToLive m) 0); [done|].
  destruct (Z.ltb_spec maxTimeToLive (Message_TimeToLive m)); [done|].
  cbn [orb].
  destruct (String.eqb_spec (Message_Priority m) "");
    destruct (String.eqb_spec (Message_Priority m) fcmPushPriorityHigh);
    destruct (String.eqb_spec (Message_Priority m) fcmPushPriorityNormal);
    cbn; intros ?; try done;
    (split; [done|]); (split; [unfold len in *; lia|]); (split; [lia|]); auto.
Qed.

(** A validated message has a first registration ID. *)
Lemma validate_None_targets m :
  validate (Some m) = None -> elems (Message_RegistrationIDs m) <> [].
Proof.
  intros (_ & Hlen & _)%validate_None_inv Hnil.
  unfold len in Hlen. rewrite Hnil in Hlen. cbn in Hlen. lia.
Qed.

(** [getAcsessToken] makes no request to the FCM server, and hands back
    either a token or one of its two errors. *)
Lemma getAcsessToken_trace acsJsonData st res st1 :
  getAcsessToken acsJsonData st = (res, st1) ->
  exists pre,
    st_trace st1 = st_trace st ++ pre
    /\ requests pre = [] /\ replies pre = []
    /\ ((exists err, res = (None, Some err) /\ isAuthError err = true)
        \/ (exists accessToken, res = (Some accessToken, None))).
Proof.
  unfold getAcsessToken.
  destruct (google_CredentialsFromJSON _ _) as [err|creds].
  { intros [= <- <-]. exists []. rewrite app_nil_r. eauto 10. }
  destruct (TokenSource_Token _ _) as [[err|accessToken] w];
    intros [= <- <-]; eexists; (split; [reflexivity|]); eauto 10.
Qed.

(** [Send] on a message that fails validation. *)
Lemma Send_invalid c msg acsJsonData st err :
  validate msg = Some err ->
  Send c msg acsJsonData st = (Returned None (Some err), st).
Proof. unfold Send. by intros ->. Qed.

(** The errors of [validate] are validation errors. *)
Lemma validate_error msg err :
  validate msg = Some err -> isValidationError err = true.
Proof.
  unfold validate. destruct msg as [m|]; [|by intros [= <-]].
  repeat (case_match; [by intros [= <-]|]). done.
Qed.

(** [Send] when the token is not to be had. *)
Lemma Send_no_token c msg acsJsonData st p err st1 :
  validate msg = None ->
  getAcsessToken acsJsonData st = ((p, Some err), st1) ->
  Send c msg acsJsonData st = (Returned None (Some err), st1).
Proof.
  intros Hv Htok. unfold Send, send, run. by rewrite Hv, Htok.
Qed.

(** [Send] once the token is there: the loop, then [finish]. *)
Lemma Send_with_token c m acsJsonData st accessToken st1 out st' :
  validate (Some m) = None ->
  getAcsessToken acsJsonData st = ((Some accessToken, None), st1) ->
  Send c (Some m) acsJsonData st = (out, st') ->
  exists evs fl,
    st_trace st' = st_trace st1 ++ evs
    /\ loopTrace c m accessToken (elems (Message_RegistrationIDs m)) "" []
         evs fl
    /\ out = finish fl.
Proof.
  intros Hv Htok. unfold Send, send, run. rewrite Hv, Htok. cbn.
  unfold bind at 1.
  destruct (sendLoop _ _ _ _ _ _ _) as [fl st2] eqn:Hloop.
  apply sendLoop_loopTrace in Hloop as (evs & Htr & Hloop).
  intros Hout. exists evs, fl. split; [|split; [done|]].
  - destruct fl as [[|r rs]|o]; cbn in Hout; by injection Hout as <- <-.
  - destruct fl as [[|r rs]|o]; cbn in Hout; by injection Hout as <- <-.
Qed.

(** Every run of [Send] on a validated message: the token exchange, then
    either its error or the loop. *)
Lemma Send_valid_run c m acsJsonData st out st' :
  validate (Some m) = None ->
  Send c (Some m) acsJsonData st = (out, st') ->
  exists pre evs,
    st_trace st' = st_trace st ++ pre ++ evs
    /\ requests pre = [] /\ replies pre = []
    /\ ((exists err, evs = [] /\ out = Returned None (Some err)
                     /\ isAuthError err = true)
        \/ (exists accessToken st1 fl,
              getAcsessToken acsJsonData st = ((Some accessToken, None), st1)
              /\ loopTrace c m accessToken
                   (elems (Message_RegistrationIDs m)) "" [] evs fl
              /\ out = finish fl)).
Proof.
  intros Hv Hrun.
  destruct (getAcsessToken acsJsonData st) as [res st1] eqn:Htok.
  destruct (getAcsessToken_trace _ _ _ _ Htok)
    as (pre & Hpre & Hreq & Hrep & [(err & -> & Hauth)|(tok & ->)]).
  - rewrite (Send_no_token _ _ _ _ _ _ _ Hv Htok) in Hrun.
    injection Hrun as <- <-. exists pre, []. rewrite app_nil_r. eauto 10.
  - destruct (Send_with_token _ _ _ _ _ _ _ _ Hv Htok Hrun)
      as (evs & fl & Htr & Hloop & ->).
    exists pre, evs. rewrite Htr, Hpre, <- app_assoc.
    split; [done|]. split; [done|]. split; [done|].
    right. by exists tok, st1, fl.
Qed.

(** The requests and replies of a run are those of its loop. *)
Lemma requests_app pre evs :
  requests pre = [] -> requests (pre ++ evs) = requests evs.
Proof. unfold requests. rewrite omap_app. by intros ->. Qed.

Lemma replies_app pre evs :
  replies pre = [] -> replies (pre ++ evs) = replies evs.
Proof. unfold replies. rewrite omap_app. by intros ->. Qed.

(** The replies of a loop stand one to one with its requests. *)
Lemma loopTrace_replies c msg accessToken ids buf responses evs fl :
  loopTrace c msg accessToken ids buf responses evs fl ->
  length (replies evs) = length evs.
Proof. unfold replies. induction 1; cbn; congruence. Qed.

(** ** Validation and the scenario *)

(** The priorities allowed. *)
Lemma priority_allowed (p : string) :
  p ∈ [""; "high"; "normal"] <-> p = "" \/ p = "high" \/ p = "normal".
Proof. rewrite !elem_of_cons, elem_of_nil. tauto. Qed.

(** No rule fails exactly when every rule holds. *)
Lemma first_failure_None rules m :
  first_failure rules m = None
  <-> Forall (fun rule => rule.1 m = true) rules.
Proof.
  induction rules as [|[holds err] rules IH]; cbn [first_failure].
  - split; [by constructor | done].
  - rewrite Forall_cons. cbn [fst].
    destruct (holds m); [rewrite IH; tauto | split; [done | by intros [? _]]].
Qed.

(** The encoder gives, for the message built for a registration ID, the
    text written down from the fields of the message. *)
Lemma encodeWrappedMessage_wireText (m : Message) token :
  encodeWrappedMessage {| WrappedMessage_Message := translate m token |}
  = match encodeData (Message_Data m) with
    | inl err => inl err
    | inr data => inr (wireText m token data)
    end.
Proof.
  unfold encodeWrappedMessage, encodeMessageV1, wireText,
    encodeNotificationV1, encodeAndroid, encodeAndroidNotification.
  cbn [translate MessageV1_Token MessageV1_CollapseKey MessageV1_Notification
       MessageV1_Data MessageV1_DelayWhileIdle MessageV1_TimeToLive
       MessageV1_Android MessageV1_RestrictedPackageName MessageV1_DryRun
       NotificationV1_Title NotificationV1_Body Android_Notification
       Android_Priority AndroidNotification_ClickAction
       AndroidNotification_Tag WrappedMessage_Message].
  destruct (encodeData (Message_Data m)) as [err|data]; [reflexivity|].
  by destruct (Message_DelayWhileIdle m), (Message_DryRun m).
Qed.

(** A request made for a registration ID, with its body spelled out. *)
Lemma requestWith_wireText c (m : Message) accessToken left token req data :
  encodeData (Message_Data m) = inr data ->
  requestWith c m accessToken left token req ->
  req = wireRequest c accessToken
          (left +:+ wireText m token data +:+ String (ascii_of_N 10) "").
Proof.
  intros Hd (js & Hjs & ->).
  rewrite encodeWrappedMessage_wireText, Hd in Hjs. by injection Hjs as <-.
Qed.

(** A request was made only if the message's [Data] encodes. *)
Lemma requestWith_data c (m : Message) accessToken left token req :
  requestWith c m accessToken left token req ->
  exists data, encodeData (Message_Data m) = inr data.
Proof.
  intros (js & Hjs & _). rewrite encodeWrappedMessage_wireText in Hjs.
  destruct (encodeData (Message_Data m)); [done | eauto].
Qed.

(** The JSON text of the scenario's message. *)
Lemma scenario_encoding :
  encodeWrappedMessage
    {| WrappedMessage_Message := translate scenarioMessage "tok1" |}
  = inr (json_text "{'message':{'token':'tok1','notification':{'title':'Hi','body':'there'},'android':{'notification':{'click_action':'','tag':''},'priority':'high'}}}").
Proof. vm_compute. reflexivity. Qed.

(** ** The claims *)

(** C1 (as amended): when a validated message is sent and every one of
    its registration IDs gets a reply with status 200 and a body that
    decodes ([rs] lists the decoded results, one per registration ID),
    [Send] returns a nil error and the result decoded for the first
    registration ID; the later results are not handed back. *)
Theorem Send_returns_first_result c m acsJsonData st out st' evs rs :
  validate (Some m) = None ->
  Send c (Some m) acsJsonData st = (out, st') ->
  st_trace st' = st_trace st ++ evs ->
  Forall2 delivered (replies evs) rs ->
  length rs = length (elems (Message_RegistrationIDs m)) ->
  exists r, head rs = Some r
            /\ out = Returned (Some r) None
            /\ results_returned out = [r].
Proof.
  intros Hv Hrun Htr Hrs Hlen.
  destruct (Send_valid_run _ _ _ _ _ _ Hv Hrun)
    as (pre & evs' & Htr' & _ & Hrep & Hcases).
  rewrite Htr' in Htr. apply app_inv_head in Htr as <-.
  rewrite (replies_app _ _ Hrep) in Hrs.
  pose proof (validate_None_targets _ Hv) as Hne.
  destruct Hcases as [(err & -> & _)|(tok & st1 & fl & _ & Hloop & ->)].
  - apply Forall2_length in Hrs. cbn in Hrs.
    destruct (elems _); [done | cbn in Hlen; lia].
  - rewrite (loopTrace_all_delivered _ _ _ _ _ _ _ _ Hloop rs Hrs Hlen).
    destruct rs as [|r rs]; [|by exists r].
    destruct (elems _); [done | discriminate].
Qed.

(** C2 (as amended): for the scenario's message, on a client whose URL
    parses and with a token in hand, [Send] makes the single POST whose
    body is the JSON text below followed by a newline, in which
    [click_action] and [tag] are present as empty strings; when the reply
    has status 200 and the body shown, [Send] returns what that body
    decodes to. *)
Theorem scenario_request_and_result
    c acsJsonData st accessToken st1 resp w r :
  url_Parse (Client_URL c) = None ->
  getAcsessToken acsJsonData st = ((Some accessToken, None), st1) ->
  Client_Http c (scenarioRequest c accessToken) (st_world st1)
    = (inr resp, w) ->
  Response_StatusCode resp = 200%Z ->
  Response_Body resp = json_text "{'name':'projects/x/messages/1'}" ->
  json_Decode (json_text "{'name':'projects/x/messages/1'}") = inr r ->
  Send c (Some scenarioMessage) acsJsonData st
  = (Returned (Some r) None,
     {| st_world := w;
        st_trace :=
          st_trace st1 ++ [EvDo (scenarioRequest c accessToken) (inr resp)] |})
  /\ Request_Body (scenarioRequest c accessToken)
     = json_text "{'message':{'token':'tok1','notification':{'title':'Hi','body':'there'},'android':{'notification':{'click_action':'','tag':''},'priority':'high'}}}"
       +:+ String (ascii_of_N 10) ""
  /\ encodeWrappedMessage
       {| WrappedMessage_Message := translate scenarioMessage "tok1" |}
     = inr (json_text "{'message':{'token':'tok1','notification':{'title':'Hi','body':'there'},'android':{'notification':{'click_action':'','tag':''},'priority':'high'}}}").
Proof.
  intros Hurl Htok Hdo Hcode Hbody Hdec.
  split; [|split; [reflexivity | apply scenario_encoding]].
  unfold Send, send, run.
  replace (validate (Some scenarioMessage)) with (@None error)
    by (vm_compute; reflexivity).
  rewrite Htok. cbn [deref bind ret].
  change (elems (Message_RegistrationIDs scenarioMessage)) with ["tok1"].
  unfold bind at 1. rewrite sendLoop_cons, scenario_encoding, Hurl.
  change {| Request_Method := "POST"; Request_URL := Client_URL c;
            Request_Header := _; Request_Body := _ |}
    with (scenarioRequest c accessToken).
  cbv zeta. rewrite Hdo, Hcode, Hbody, Hdec. reflexivity.
Qed.

(** C3: when, on a validated message, the reply at position [k] of the
    run carries another status than 200, [Send] returns a nil result and
    the invalid-status error; the request it answers is the one made for
    the registration ID at position [k] (its body ends with the message
    built for that ID, and is that message alone when the transport
    reads its bodies) and is the last one made (none goes out for a later
    registration ID); nothing of what was collected reaches the
    caller. *)
Theorem Send_aborts_on_status c m acsJsonData st out st' evs k resp :
  validate (Some m) = None ->
  Send c (Some m) acsJsonData st = (out, st') ->
  st_trace st' = st_trace st ++ evs ->
  replies evs !! k = Some (inr resp) ->
  Response_StatusCode resp <> http_StatusOK ->
  out = Returned None
          (Some (ErrInvalidStatus (Response_StatusCode resp)
                   (Response_Status resp)))
  /\ length (requests evs) = S k
  /\ (exists accessToken token req,
        elems (Message_RegistrationIDs m) !! k = Some token
        /\ requests evs !! k = Some req
        /\ (exists left, requestWith c m accessToken left token req)
        /\ (readsBodies -> requestFor c m accessToken token req))
  /\ results_returned out = [].
Proof.
  intros Hv Hrun Htr Hk Hcode.
  destruct (Send_valid_run _ _ _ _ _ _ Hv Hrun)
    as (pre & evs' & Htr' & Hreq & Hrep & Hcases).
  rewrite Htr' in Htr. apply app_inv_head in Htr as <-.
  rewrite (replies_app _ _ Hrep) in Hk. rewrite (requests_app _ _ Hreq).
  destruct Hcases as [(err & -> & _)|(tok & st1 & fl & _ & Hloop & ->)];
    [done|].
  destruct (loopTrace_status _ _ _ _ _ _ _ _ Hloop _ _ Hk Hcode) as [-> Hlast].
  destruct (loopTrace_requests _ _ _ _ _ _ _ _ Hloop) as [Hlen Hall].
  rewrite Hlen. split; [done|]. split; [done|]. split; [|done].
  destruct (lookup_lt_is_Some_2 (requests evs') k) as [req Hreq']; [lia|].
  destruct (Forall2_lookup_r _ _ _ _ _ Hall Hreq') as (token & Htoken & Hfor).
  exists tok, token, req.
  split; [by apply lookup_take_Some in Htoken as [? _]|].
  split; [done|]. split; [done|].
  intros Hread.
  pose proof (loopTrace_requests_read _ _ _ _ _ _ _ Hread Hloop) as Hall'.
  destruct (Forall2_lookup_r _ _ _ _ _ Hall' Hreq')
    as (token' & Htoken' & Hfor').
  by replace token with token' by congruence.
Qed.


(** C5: a message that fails validation (a nil message, nil or empty
    [RegistrationIDs], or any other rule) makes [Send] return the
    validation error of [validate] at once: the state, and so the trace
    of calls, is as before, with no token exchange and no request. *)
Theorem Send_invalid_no_network c msg acsJsonData st :
  (msg = None
   \/ (exists m, msg = Some m /\ elems (Message_RegistrationIDs m) = [])
   \/ validate msg <> None) ->
  exists err,
    validate msg = Some err
    /\ isValidationError err = true
    /\ Send c msg acsJsonData st = (Returned None (Some err), st).
Proof.
  intros Hbad.
  destruct (validate msg) as [err|] eqn:Hv.
  - exists err. split; [done|].
    split; [by eapply validate_error | by apply Send_invalid].
  - exfalso. destruct Hbad as [-> | [(m & -> & Hnil) | Hne]]; [done| |done].
    by apply validate_None_targets in Hv.
Qed.

(** C6: on a validated message, when [getAcsessToken] comes back with an
    error, [Send] returns a nil result and that error, which is one of
    the two errors of the credential exchange; no request has been made
    to the FCM server. *)
Theorem Send_auth_failure c msg acsJsonData st p err st1 :
  validate msg = None ->
  getAcsessToken acsJsonData st = ((p, Some err), st1) ->
  Send c msg acsJsonData st = (Returned None (Some err), st1)
  /\ isAuthError err = true
  /\ requests (st_trace st1) = requests (st_trace st).
Proof.
  intros Hv Htok. split; [by eapply Send_no_token|].
  destruct (getAcsessToken_trace _ _ _ _ Htok)
    as (pre & -> & Hreq & _ & [(e & [= -> <-] & Hauth)|(tok & [=])]).
  split; [done|]. unfold requests in *. by rewrite omap_app, Hreq, app_nil_r.
Qed.

(** C7: [validate] gives the error of the first of the six rules, in the
    order of the specification, that the message breaks, and no error
    exactly when the message is there and keeps all of them.  It is a
    function of the message alone: it neither reads nor changes the
    state. *)
Theorem validate_first_failure msg :
  validate msg = validate_spec msg
  /\ (validate msg = None <->
      exists m, msg = Some m
                /\ Forall (fun rule => rule.1 m = true) validation_rules).
Proof.
  assert (validate msg = validate_spec msg) as Heq.
  { destruct msg as [m|]; [|reflexivity].
    unfold validate, validate_spec, validation_rules, first_failure.
    destruct (isNil (Message_RegistrationIDs m)); cbn [negb]; [done|].
    assert (0 <= len (Message_RegistrationIDs m))%Z by (unfold len; lia).
    destruct (Z.eqb_spec (len (Message_RegistrationIDs m)) 0),
      (Z.leb_spec 1 (len (Message_RegistrationIDs m))); try lia; [done|].
    unfold maxRegistrationIDs.
    destruct (Z.gtb_spec (len (Message_RegistrationIDs m)) 1000),
      (Z.leb_spec (len (Message_RegistrationIDs m)) 1000); try lia; [done|].
    unfold maxTimeToLive.
    destruct (Z.ltb_spec (Message_TimeToLive m) 0),
      (Z.leb_spec 0 (Message_TimeToLive m)); try lia; [done|].
    destruct (Z.ltb_spec 2419200 (Message_TimeToLive m)),
      (Z.leb_spec (Message_TimeToLive m) 2419200); try lia; [done|].
    cbn [orb andb].
    unfold fcmPushPriorityHigh, fcmPushPriorityNormal.
    destruct (String.eqb_spec (Message_Priority m) ""),
      (String.eqb_spec (Message_Priority m) "high"),
      (String.eqb_spec (Message_Priority m) "normal"); cbn [negb andb];
      case_bool_decide as Hin; try done; exfalso;
      rewrite priority_allowed in Hin; tauto. }
  split; [done|]. rewrite Heq. destruct msg as [m|]; cbn [validate_spec].
  - rewrite first_failure_None. split; [by exists m | by intros (? & [= <-] & ?)].
  - split; [done | by intros (? & [=] & _)].
Qed.

(** C8: a [TimeToLive] below 0 or above 2419200, and likewise a
    [Priority] that is none of the three strings allowed, compared byte
    for byte, makes [Send] return a validation error at once; a message
    that keeps the other rules passes with [TimeToLive] 0 and with
    [TimeToLive] 2419200. *)
Theorem validate_bounds c m acsJsonData st :
  ((Message_TimeToLive m < 0)%Z \/ (2419200 < Message_TimeToLive m)%Z
   \/ Message_Priority m ∉ [""; "high"; "normal"] ->
   exists err,
     isValidationError err = true
     /\ Send c (Some m) acsJsonData st = (Returned None (Some err), st))
  /\ (isNil (Message_RegistrationIDs m) = false ->
      (1 <= len (Message_RegistrationIDs m) <= 1000)%Z ->
      Message_Priority m ∈ [""; "high"; "normal"] ->
      Message_TimeToLive m = 0%Z \/ Message_TimeToLive m = 2419200%Z ->
      validate (Some m) = None).
Proof.
  split.
  - intros Hbad.
    destruct (validate (Some m)) as [err|] eqn:Hv.
    + exists err. split; [by eapply validate_error | by apply Send_invalid].
    + exfalso. apply validate_None_inv in Hv as (_ & _ & Httl & Hp).
      unfold maxTimeToLive, fcmPushPriorityHigh, fcmPushPriorityNormal in *.
      destruct Hbad as [?|[?|Hnot]]; [lia | lia |].
      by apply Hnot, priority_allowed.
  - intros Hnil Hlen Hp Httl. unfold validate. rewrite Hnil.
    unfold maxRegistrationIDs, maxTimeToLive.
    destruct (Z.eqb_spec (len (Message_RegistrationIDs m)) 0); [lia|].
    destruct (Z.gtb_spec (len (Message_RegistrationIDs m)) 1000); [lia|].
    destruct (Z.ltb_spec (Message_TimeToLive m) 0); [lia|].
    destruct (Z.ltb_spec 2419200 (Message_TimeToLive m)); [lia|].
    cbn [orb]. unfold fcmPushPriorityHigh, fcmPushPriorityNormal.
    destruct (String.eqb_spec (Message_Priority m) ""),
      (String.eqb_spec (Message_Priority m) "high"),
      (String.eqb_spec (Message_Priority m) "normal"); cbn; try done.
    exfalso. apply priority_allowed in Hp. tauto.
Qed.

(** C9: the [MessageV1] built for a message and a registration ID keeps
    title and body, and nothing else, in its top-level notification,
    which therefore does not change with the message's click action and
    tag; these two go to the notification of the android block, next to
    the message's priority.  The same message and registration ID give
    the same [MessageV1]. *)
Theorem translate_notification_split m token :
  MessageV1_Notification (translate m token)
  = {| NotificationV1_Title := Notification_Title (Message_Notification m);
       NotificationV1_Body := Notification_Body (Message_Notification m) |}
  /\ MessageV1_Android (translate m token)
     = {| Android_Notification :=
            {| AndroidNotification_ClickAction :=
                 Notification_ClickAction (Message_Notification m);
               AndroidNotification_Tag :=
                 Notification_Tag (Message_Notification m) |};
          Android_Priority := Message_Priority m |}
  /\ encodeNotificationV1 (MessageV1_Notification (translate m token))
     = object
         [ Some (member "title"
                   (encodeString (Notification_Title (Message_Notification m))));
           Some (member "body"
                   (encodeString (Notification_Body (Message_Notification m)))) ]
  /\ (forall m' token',
        Notification_Title (Message_Notification m')
        = Notification_Title (Message_Notification m) ->
        Notification_Body (Message_Notification m')
        = Notification_Body (Message_Notification m) ->
        MessageV1_Notification (translate m' token')
        = MessageV1_Notification (translate m token))
  /\ (forall m' token',
        m' = m -> token' = token -> translate m' token' = translate m token).
Proof.
  repeat split; try reflexivity.
  - intros m' token' Ht Hb. cbn. by rewrite Ht, Hb.
  - by intros m' token' -> ->.
Qed.


End Theory.

(** ** The theorems at work in the scripted world *)

Section Witnesses.
#[local] Existing Instance scripted.

(** Two registration IDs, both accepted: the result for the first comes
    back. *)
Lemma Send_returns_first_result_witness :
  let m := messageTo (Some ["A"; "B"]) in
  let run := Send (clientOf accepting) (Some m) serviceAccount start in
  exists r, head [messageName 1; messageName 2] = Some r
            /\ run.1 = Returned (Some r) None
            /\ results_returned run.1 = [r].
Proof.
  intros m run.
  apply (Send_returns_first_result (clientOf accepting) m serviceAccount
           start run.1 run.2 (st_trace run.2)
           [messageName 1; messageName 2]).
  - reflexivity.
  - reflexivity.
  - reflexivity.
  - repeat constructor; eexists; repeat split; reflexivity.
  - reflexivity.
Defined.

(** C1 as stated fails: two registration IDs, two results decoded, one
    handed back. *)
Lemma Send_drops_later_results :
  let m := messageTo (Some ["A"; "B"]) in
  let run := Send (clientOf accepting) (Some m) serviceAccount start in
  validate (Some m) = None
  /\ Forall2 delivered (replies (st_trace run.2))
       [messageName 1; messageName 2]
  /\ results_returned run.1 = [messageName 1]
  /\ results_returned run.1 <> [messageName 1; messageName 2].
Proof.
  intros m run. split; [reflexivity|]. split.
  { repeat constructor; eexists; repeat split; reflexivity. }
  assert (results_returned run.1 = [messageName 1]) as Hone by reflexivity.
  split; [done|]. rewrite Hone. discriminate.
Qed.

(** The scenario against the accepting server. *)
Lemma scenario_request_and_result_witness :
  let c := clientOf accepting in
  let st1 := afterToken serviceAccount (inr "ya29.token") in
  Send c (Some scenarioMessage) serviceAccount start
  = (Returned (Some (messageName 1)) None,
     {| st_world := 1%nat;
        st_trace :=
          st_trace st1
          ++ [EvDo (scenarioRequest c "ya29.token") (inr firstReply)] |})
  /\ Request_Body (scenarioRequest c "ya29.token")
     = json_text "{'message':{'token':'tok1','notification':{'title':'Hi','body':'there'},'android':{'notification':{'click_action':'','tag':''},'priority':'high'}}}"
       +:+ String (ascii_of_N 10) ""
  /\ encodeWrappedMessage
       {| WrappedMessage_Message := translate scenarioMessage "tok1" |}
     = inr (json_text "{'message':{'token':'tok1','notification':{'title':'Hi','body':'there'},'android':{'notification':{'click_action':'','tag':''},'priority':'high'}}}").
Proof.
  intros c st1.
  apply (scenario_request_and_result c serviceAccount start "ya29.token"
           st1 firstReply 1%nat (messageName 1)); reflexivity.
Defined.

(** C2 as stated fails: the body of the POST is not the text of the
    specification, with or without the newline; the notification of the
    android block is not empty. *)
Lemma scenario_body_differs :
  let run :=
    Send (clientOf accepting) (Some scenarioMessage) serviceAccount start in
  exists req,
    requests (st_trace run.2) = [req]
    /\ Request_Body req <> scenarioBodyInSpec
    /\ Request_Body req <> scenarioBodyInSpec +:+ String (ascii_of_N 10) ""
    /\ encodeAndroidNotification
         {| AndroidNotification_ClickAction := "";
            AndroidNotification_Tag := "" |}
       = json_text "{'click_action':'','tag':''}".
Proof.
  intros run. eexists. split; [reflexivity|].
  split; [vm_compute; discriminate|].
  split; [vm_compute; discriminate | reflexivity].
Qed.

(** The scripted transport reads its bodies. *)
Lemma scripted_readsBodies : @readsBodies scripted.
Proof. intros w body. exact (le_n _). Defined.

(** Three registration IDs, the second refused with status 500: two
    requests, the second one for ["B"], and the error. *)
Lemma Send_aborts_on_status_witness :
  let m := messageTo (Some ["A"; "B"; "C"]) in
  let run := Send (clientOf (refusing 2)) (Some m) serviceAccount start in
  run.1 = Returned None
            (Some (ErrInvalidStatus 500 "500 Internal Server Error"))
  /\ length (requests (st_trace run.2)) = 2%nat
  /\ (exists accessToken token req,
        ["A"; "B"; "C"] !! 1%nat = Some token
        /\ requests (st_trace run.2) !! 1%nat = Some req
        /\ (exists left,
              requestWith (clientOf (refusing 2)) m accessToken left token req)
        /\ requestFor (clientOf (refusing 2)) m accessToken token req)
  /\ results_returned run.1 = [].
Proof.
  intros m run.
  destruct (Send_aborts_on_status (clientOf (refusing 2)) m serviceAccount
              start run.1 run.2 (st_trace run.2) 1%nat refusal
              eq_refl eq_refl eq_refl eq_refl
              ltac:(vm_compute; discriminate))
    as (Hout & Hlen & (tok & token & req & Hid & Hreq & Hwith & Hfor) & Hres).
  split; [exact Hout|]. split; [exact Hlen|]. split; [|exact Hres].
  exists tok, token, req.
  split; [exact Hid|]. split; [exact Hreq|]. split; [exact Hwith|].
  exact (Hfor scripted_readsBodies).
Defined.


(** An empty, non-nil [RegistrationIDs]: the error, and the state as it
    was. *)
Lemma Send_invalid_no_network_witness :
  exists err,
    validate (Some (messageTo (Some []))) = Some err
    /\ isValidationError err = true
    /\ Send (clientOf accepting) (Some (messageTo (Some []))) serviceAccount
         start
       = (Returned None (Some err), start).
Proof.
  apply (Send_invalid_no_network (clientOf accepting)
           (Some (messageTo (Some []))) serviceAccount start).
  right. left. exists (messageTo (Some [])). split; reflexivity.
Defined.

(** Credentials for which the exchange is denied: the token error, and no
    request. *)
Lemma Send_auth_failure_witness :
  let st1 := afterToken "{}" (inl "oauth2: cannot fetch token") in
  Send (clientOf accepting) (Some scenarioMessage) "{}" start
  = (Returned None (Some (ErrToken "oauth2: cannot fetch token")), st1)
  /\ isAuthError (ErrToken "oauth2: cannot fetch token") = true
  /\ requests (st_trace st1) = requests (st_trace start).
Proof.
  intros st1.
  apply (Send_auth_failure (clientOf accepting) (Some scenarioMessage) "{}"
           start None); reflexivity.
Defined.

(** One second too long, a priority in the wrong case, and the two
    ends of the range. *)
Lemma validate_bounds_witness :
  (exists err,
     isValidationError err = true
     /\ Send (clientOf accepting)
          (Some (messageWith (Some ["A"]) 2419201 "high")) serviceAccount
          start
        = (Returned None (Some err), start))
  /\ (exists err,
        isValidationError err = true
        /\ Send (clientOf accepting)
             (Some (messageWith (Some ["A"]) 0 "High")) serviceAccount start
           = (Returned None (Some err), start))
  /\ validate (Some (messageWith (Some ["A"]) 2419200 "normal")) = None
  /\ validate (Some (messageWith (Some ["A"]) 0 "")) = None.
Proof.
  split; [|split; [|split]].
  - apply (proj1 (validate_bounds (clientOf accepting)
                    (messageWith (Some ["A"]) 2419201 "high")
                    serviceAccount start)).
    right. left. reflexivity.
  - apply (proj1 (validate_bounds (clientOf accepting)
                    (messageWith (Some ["A"]) 0 "High")
                    serviceAccount start)).
    right. right. rewrite priority_allowed.
    intros [?|[?|?]]; discriminate.
  - apply (proj2 (validate_bounds (clientOf accepting)
                    (messageWith (Some ["A"]) 2419200 "normal")
                    serviceAccount start)).
    + reflexivity.
    + split; discriminate.
    + apply priority_allowed. tauto.
    + right. reflexivity.
  - apply (proj2 (validate_bounds (clientOf accepting)
                    (messageWith (Some ["A"]) 0 "")
                    serviceAccount start)).
    + reflexivity.
    + split; discriminate.
    + apply priority_allowed. tauto.
    + left. reflexivity.
Defined.


(** Without validation in front, [send] on a message with no registration
    ID panics at [responses[0]]. *)
Example send_unvalidated_panics :
  (send (clientOf accepting) (Some (messageTo (Some []))) serviceAccount
     start).1 = Panicked.
Proof. reflexivity. Qed.

End Witnesses.

Section UnreadWitnesses.
#[local] Existing Instance scriptedUnread.


End UnreadWitnesses.

(** * Further properties *)

Section Further.
Context `{Collaborators}.

(** ** Every run of [Send] *)

(** The run of [send] once the token is there, validated message or
    not. *)
Lemma send_with_token c m acsJsonData st accessToken st1 out st' :
  getAcsessToken acsJsonData st = ((Some accessToken, None), st1) ->
  send c (Some m) acsJsonData st = (out, st') ->
  exists evs fl,
    st_trace st' = st_trace st1 ++ evs
    /\ loopTrace c m accessToken (elems (Message_RegistrationIDs m)) "" []
         evs fl
    /\ out = finish fl.
Proof.
  intros Htok. unfold send, run. rewrite Htok. cbn.
  unfold bind at 1.
  destruct (sendLoop _ _ _ _ _ _ _) as [fl st2] eqn:Hloop.
  apply sendLoop_loopTrace in Hloop as (evs & Htr & Hloop).
  intros Hout. exists evs, fl.
  destruct fl as [[|r rs]|o]; cbn in Hout; injection Hout as <- <-; done.
Qed.

(** What [getAcsessToken] does, case by case. *)
Lemma getAcsessToken_cases acsJsonData st :
  (exists err,
     google_CredentialsFromJSON acsJsonData firebaseMessagingScope = inl err
     /\ getAcsessToken acsJsonData st = ((None, Some (ErrCredentials err)), st))
  \/ (exists creds err w,
        google_CredentialsFromJSON acsJsonData firebaseMessagingScope
          = inr creds
        /\ TokenSource_Token creds (st_world st) = (inl err, w)
        /\ getAcsessToken acsJsonData st
           = ((None, Some (ErrToken err)),
              {| st_world := w;
                 st_trace := st_trace st ++ [EvToken creds (inl err)] |}))
  \/ (exists creds accessToken w,
        google_CredentialsFromJSON acsJsonData firebaseMessagingScope
          = inr creds
        /\ TokenSource_Token creds (st_world st) = (inr accessToken, w)
        /\ getAcsessToken acsJsonData st
           = ((Some accessToken, None),
              {| st_world := w;
                 st_trace :=
                   st_trace st ++ [EvToken creds (inr accessToken)] |})).
Proof.
  unfold getAcsessToken.
  destruct (google_CredentialsFromJSON _ _) as [err|creds];
    [left; by exists err|].
  destruct (TokenSource_Token _ _) as [[err|accessToken] w] eqn:Htok.
  - right; left. exists creds, err, w. by rewrite Htok.
  - right; right. exists creds, accessToken, w. by rewrite Htok.
Qed.

(** Every call of [Send] is one of the runs of [SendRun]. *)
Lemma Send_SendRun c msg acsJsonData st out st' evs :
  Send c msg acsJsonData st = (out, st') ->
  st_trace st' = st_trace st ++ evs ->
  SendRun c msg evs out.
Proof.
  intros Hrun Htr.
  destruct (validate msg) as [err|] eqn:Hv.
  { rewrite (Send_invalid _ _ _ _ _ Hv) in Hrun. injection Hrun as <- <-.
    rewrite <- (app_nil_r (st_trace st)) in Htr at 1.
    apply app_inv_head in Htr as <-. by constructor. }
  destruct (getAcsessToken_cases acsJsonData st)
    as [(err & _ & Htok)|[(creds & err & w & _ & _ & Htok)
                         |(creds & tok & w & _ & _ & Htok)]].
  - rewrite (Send_no_token _ _ _ _ _ _ _ Hv Htok) in Hrun.
    injection Hrun as <- <-.
    rewrite <- (app_nil_r (st_trace st)) in Htr at 1.
    apply app_inv_head in Htr as <-. by constructor.
  - rewrite (Send_no_token _ _ _ _ _ _ _ Hv Htok) in Hrun.
    injection Hrun as <- <-. cbn in Htr.
    apply app_inv_head in Htr as <-. by constructor.
  - destruct msg as [m|]; [|done].
    destruct (Send_with_token _ _ _ _ _ _ _ _ Hv Htok Hrun)
      as (loop & fl & Htr' & Hloop & ->).
    cbn in Htr'. rewrite Htr', <- app_assoc in Htr.
    apply app_inv_head in Htr as <-. by econstructor.
Qed.


(** ** More on the loop *)

(** The loop makes no token exchange. *)
Lemma loopTrace_no_token c msg accessToken ids buf responses evs fl :
  loopTrace c msg accessToken ids buf responses evs fl -> tokenCalls evs = [].
Proof. unfold tokenCalls. induction 1; cbn; done. Qed.

(** A request that the transport fails to carry is the last one, and the
    transport's error is what the loop returns. *)
Lemma loopTrace_transport_error c msg accessToken ids buf responses evs fl :
  loopTrace c msg accessToken ids buf responses evs fl ->
  forall k err,
    replies evs !! k = Some (inl err) ->
    fl = Leave (Returned None (Some (LibError err))) /\ length evs = S k.
Proof.
  unfold replies.
  induction 1 as [ | | | | | | token ids buf responses req resp response w evs fl Hreq Hd Hloop IH]; intros k err' Hk;
    cbn in Hk; try done.
  - destruct k; cbn in Hk; [|done]. by injection Hk as <-.
  - destruct k; cbn in Hk; done.
  - destruct k; cbn in Hk; done.
  - destruct k; cbn in Hk; [done|].
    destruct (IH _ _ Hk) as [-> Hlen]. cbn. by rewrite Hlen.
Qed.

(** A reply with status 200 whose body does not decode is the last one,
    and the decoder's error is what the loop returns. *)
Lemma loopTrace_decode_error c msg accessToken ids buf responses evs fl :
  loopTrace c msg accessToken ids buf responses evs fl ->
  forall k resp err,
    replies evs !! k = Some (inr resp) ->
    Response_StatusCode resp = http_StatusOK ->
    json_Decode (Response_Body resp) = inl err ->
    fl = Leave (Returned None (Some (LibError err))) /\ length evs = S k.
Proof.
  unfold replies.
  induction 1 as [ | | | | | | token ids buf responses req resp response w evs fl Hreq Hd Hloop IH];
    intros k resp' err' Hk Hcode Hdec; cbn in Hk; try done.
  - destruct k; cbn in Hk; done.
  - destruct k; cbn in Hk; [|done]. injection Hk as <-. done.
  - destruct k; cbn in Hk; [|done]. injection Hk as <-.
    split; [|done]. congruence.
  - destruct k; cbn in Hk.
    + injection Hk as <-. destruct Hd as (? & [= <-] & _ & ?). congruence.
    + destruct (IH _ _ _ Hk Hcode Hdec) as [-> Hlen]. cbn. by rewrite Hlen.
Qed.

(** Every reply but the last was delivered. *)
Lemma loopTrace_earlier_delivered c msg accessToken ids buf responses evs fl :
  loopTrace c msg accessToken ids buf responses evs fl ->
  forall i res,
    replies evs !! i = Some res ->
    (S i < length (replies evs))%nat ->
    exists r, delivered res r.
Proof.
  unfold replies.
  induction 1 as [ | | | | | | token ids buf responses req resp response w evs fl Hreq Hd Hloop IH]; intros i res Hi Hlt;
    cbn in Hi, Hlt; try done; try (destruct i; cbn in Hi; [lia | done]).
  destruct i; cbn in Hi.
  - injection Hi as <-. eauto.
  - apply (IH _ _ Hi). lia.
Qed.

(** The wrapped message encodes exactly when the message's [Data]
    does. *)
Lemma encodeWrappedMessage_error (m : Message) token err :
  encodeData (Message_Data m) = inl err ->
  encodeWrappedMessage {| WrappedMessage_Message := translate m token |}
  = inl err.
Proof.
  intros Hd. unfold encodeWrappedMessage, encodeMessageV1. cbn. by rewrite Hd.
Qed.

Lemma encodeWrappedMessage_ok (m : Message) token d :
  encodeData (Message_Data m) = inr d ->
  exists js,
    encodeWrappedMessage {| WrappedMessage_Message := translate m token |}
    = inr js.
Proof.
  intros Hd. unfold encodeWrappedMessage, encodeMessageV1. cbn. rewrite Hd.
  eauto.
Qed.

(** With data that encodes and a URL that parses, the loop gets its first
    request out. *)
Lemma loopTrace_first_request c msg accessToken token ids responses evs fl d :
  loopTrace c msg accessToken (token :: ids) "" responses evs fl ->
  encodeData (Message_Data msg) = inr d ->
  url_Parse (Client_URL c) = None ->
  exists req, head (requests evs) = Some req
              /\ requestFor c msg accessToken token req.
Proof.
  intros Hloop Hd Hurl.
  destruct (encodeWrappedMessage_ok msg token d Hd) as [js Hjs].
  inversion Hloop; subst; try congruence; cbn; eauto.
Qed.


(** ** Further properties *)

(** X1: [NewClient] hands out a client exactly when the URL and the key
    are not empty and the URL parses; the client then holds that URL,
    that key and the default transport.  An empty URL is what is
    reported whatever the key, and an empty key whatever the URL parses
    to. *)
Theorem NewClient_client_iff dc urlString apiKey :
  ((exists c, NewClient dc urlString apiKey = (Some c, None))
   <-> urlString <> "" /\ apiKey <> "" /\ url_Parse urlString = None)
  /\ (forall c err,
        NewClient dc urlString apiKey = (Some c, err) ->
        err = None
        /\ c = {| Client_ApiKey := apiKey; Client_URL := urlString;
                  Client_Http := dc |})
  /\ NewClient dc "" apiKey = (None, Some ErrMissingURL)
  /\ (urlString <> "" ->
      NewClient dc urlString "" = (None, Some ErrMissingAPIKey)).
Proof.
  unfold NewClient.
  split; [|split; [|split]].
  - destruct urlString as [|a u]; cbn.
    { split; [by intros [? [=]] | by intros [? _]]. }
    destruct apiKey as [|b k]; cbn.
    { split; [by intros [? [=]] | by intros (_ & ? & _)]. }
    destruct (url_Parse _) as [err|].
    + split; [by intros [? [=]] | by intros (_ & _ & [=])].
    + split; [done | eauto].
  - intros c err.
    destruct urlString as [|a u]; cbn; [by intros [=]|].
    destruct apiKey as [|b k]; cbn; [by intros [=]|].
    destruct (url_Parse _); [by intros [=] | by intros [= <- <-]].
  - reflexivity.
  - destruct urlString; [done | reflexivity].
Qed.

(** X2: a client that [NewClient] handed out never fails to build its
    request: on a validated message whose [Data] encodes and with a token
    in hand, [Send] gets a first POST out, for the first registration ID
    and to the URL given to [NewClient]. *)
Theorem NewClient_Send_reaches_network
    dc urlString apiKey c m d acsJsonData st accessToken st1 out st' evs :
  NewClient dc urlString apiKey = (Some c, None) ->
  validate (Some m) = None ->
  encodeData (Message_Data m) = inr d ->
  getAcsessToken acsJsonData st = ((Some accessToken, None), st1) ->
  Send c (Some m) acsJsonData st = (out, st') ->
  st_trace st' = st_trace st ++ evs ->
  exists token req,
    head (elems (Message_RegistrationIDs m)) = Some token
    /\ head (requests evs) = Some req
    /\ requestFor c m accessToken token req
    /\ Request_URL req = urlString.
Proof.
  intros Hnew Hv Hd Htok Hrun Htr.
  assert (Client_URL c = urlString /\ url_Parse (Client_URL c) = None)
    as [Hurl Hparse].
  { unfold NewClient in Hnew.
    destruct (String.length urlString =? 0)%nat; [done|].
    destruct (String.length apiKey =? 0)%nat; [done|].
    destruct (url_Parse urlString) eqn:Hp; [done|].
    by injection Hnew as <-. }
  destruct (Send_with_token _ _ _ _ _ _ _ _ Hv Htok Hrun)
    as (loop & fl & Htr' & Hloop & _).
  destruct (getAcsessToken_trace _ _ _ _ Htok) as (pre & Hpre & Hreq & _).
  rewrite Htr', Hpre, <- app_assoc in Htr. apply app_inv_head in Htr as <-.
  rewrite (requests_app _ _ Hreq).
  pose proof (validate_None_targets _ Hv) as Hne.
  destruct (elems (Message_RegistrationIDs m)) as [|token ids]; [done|].
  destruct (loopTrace_first_request _ _ _ _ _ _ _ _ _ Hloop Hd Hparse)
    as (req & Hhead & Hfor).
  exists token, req. split; [done|]. split; [done|]. split; [done|].
  destruct Hfor as (js & _ & ->). done.
Qed.

(** X3: a message fresh from [NewMessage] passes validation exactly when
    it was given between 1 and 1000 registration IDs; a call that names
    none leaves the nil slice and gets the nil-slice error, not the
    empty-list one. *)
Theorem NewMessage_validate data regIDs :
  (validate (Some (NewMessage data regIDs)) = None
   <-> (1 <= len regIDs <= 1000)%Z)
  /\ (regIDs = None ->
      validate (Some (NewMessage data regIDs)) = Some ErrNilRegistrationIDs)
  /\ (regIDs = Some [] ->
      validate (Some (NewMessage data regIDs)) = Some ErrNoRegistrationIDs).
Proof.
  split; [|split; [by intros -> | by intros ->]].
  unfold validate, NewMessage, maxRegistrationIDs. cbn.
  destruct regIDs as [ids|]; cbn; [|split; [done | unfold len; cbn; lia]].
  destruct (Z.eqb_spec (len (Some ids)) 0); [split; [done | lia]|].
  destruct (Z.gtb_spec (len (Some ids)) 1000); [split; [done | lia]|].
  split; [|done]. intros _. unfold len in *. lia.
Qed.

(** X4: when the transport fails on a request, or the reply has status
    200 and a body that does not decode, [Send] hands the library's error
    on with a nil result, and that request is the last one made. *)
Theorem Send_stops_at_failed_exchange
    c m acsJsonData st out st' evs k res err :
  Send c (Some m) acsJsonData st = (out, st') ->
  st_trace st' = st_trace st ++ evs ->
  replies evs !! k = Some res ->
  (res = inl err
   \/ exists resp, res = inr resp
                   /\ Response_StatusCode resp = http_StatusOK
                   /\ json_Decode (Response_Body resp) = inl err) ->
  out = Returned None (Some (LibError err))
  /\ length (requests evs) = S k.
Proof.
  intros Hrun Htr Hk Hres.
  destruct (Send_SendRun _ _ _ _ _ _ _ Hrun Htr)
    as [ | | |m' creds tok loop fl [= <-] Hv Hloop]; try done.
  change (replies (EvToken creds (inr tok) :: loop)) with (replies loop) in Hk.
  change (requests (EvToken creds (inr tok) :: loop)) with (requests loop).
  destruct (loopTrace_requests _ _ _ _ _ _ _ _ Hloop) as [Hlen _].
  rewrite Hlen.
  destruct Hres as [->|(resp & -> & Hcode & Hdec)].
  - by destruct (loopTrace_transport_error _ _ _ _ _ _ _ _ Hloop _ _ Hk)
      as [-> ->].
  - by destruct (loopTrace_decode_error _ _ _ _ _ _ _ _ Hloop _ _ _
                   Hk Hcode Hdec) as [-> ->].
Qed.

(** X5: in every run of [Send], each reply but the last one had status
    200 and a body that decoded: the loop goes on only after a
    delivery. *)
Theorem Send_earlier_replies_delivered
    c msg acsJsonData st out st' evs i res :
  Send c msg acsJsonData st = (out, st') ->
  st_trace st' = st_trace st ++ evs ->
  replies evs !! i = Some res ->
  (S i < length (replies evs))%nat ->
  exists r, delivered res r.
Proof.
  intros Hrun Htr Hi Hlt.
  destruct (Send_SendRun _ _ _ _ _ _ _ Hrun Htr)
    as [ | | |m creds tok loop fl _ _ Hloop]; try done.
  change (replies (EvToken creds (inr tok) :: loop)) with (replies loop)
    in Hi, Hlt.
  by eapply loopTrace_earlier_delivered.
Qed.

(** X6: whatever the outcome, the requests of a run are those made for
    an initial stretch of [RegistrationIDs], in order and one each: never
    more requests than registration IDs, none repeated, none skipped.
    The body of each ends with the message built for its registration
    ID, after what the transport left unread of the bodies before; when
    the transport reads its bodies, it is that message alone. *)
Theorem Send_requests_prefix c m acsJsonData st out st' evs :
  Send c (Some m) acsJsonData st = (out, st') ->
  st_trace st' = st_trace st ++ evs ->
  (length (requests evs) <= length (elems (Message_RegistrationIDs m)))%nat
  /\ exists accessToken,
       Forall2
         (fun token req =>
            exists left, requestWith c m accessToken left token req)
         (take (length (requests evs)) (elems (Message_RegistrationIDs m)))
         (requests evs)
       /\ (readsBodies ->
           Forall2 (requestFor c m accessToken)
             (take (length (requests evs))
                (elems (Message_RegistrationIDs m)))
             (requests evs)).
Proof.
  intros Hrun Htr.
  destruct (Send_SendRun _ _ _ _ _ _ _ Hrun Htr)
    as [ | | |m' creds tok loop fl [= <-] Hv Hloop];
    try (cbn; split; [lia | exists ""; split; [|intros _]; constructor]).
  change (requests (EvToken creds (inr tok) :: loop)) with (requests loop).
  destruct (loopTrace_requests _ _ _ _ _ _ _ _ Hloop) as [Hlen Hall].
  rewrite Hlen. split; [by eapply loopTrace_length|].
  exists tok. split; [done|]. intros Hread.
  by eapply loopTrace_requests_read.
Qed.

(** X7: a call of [Send] makes at most one token exchange, and makes it
    before anything else; a request goes out only after an exchange that
    gave a token, and every request of the call bears that token. *)
Theorem Send_one_token_exchange c msg acsJsonData st out st' evs :
  Send c msg acsJsonData st = (out, st') ->
  st_trace st' = st_trace st ++ evs ->
  (length (tokenCalls evs) <= 1)%nat
  /\ (forall i creds res, evs !! i = Some (EvToken creds res) -> i = 0%nat)
  /\ (requests evs <> [] ->
      exists creds accessToken,
        head evs = Some (EvToken creds (inr accessToken))
        /\ Forall (fun req =>
                     Request_Header req
                     = [("Authorization", "Bearer " +:+ accessToken);
                        ("Content-Type", "application/json")])
             (requests evs)).
Proof.
  intros Hrun Htr.
  destruct (Send_SendRun _ _ _ _ _ _ _ Hrun Htr)
    as [ | |creds err|m creds tok loop fl _ _ Hloop].
  - split; [cbn; lia|]. split; [by intros [|i] | done].
  - split; [cbn; lia|]. split; [by intros [|i] | done].
  - split; [cbn; lia|]. split; [|done].
    intros [|[|i]] ? ?; done.
  - pose proof (loopTrace_no_token _ _ _ _ _ _ _ _ Hloop) as Hnone.
    split; [|split].
    + unfold tokenCalls in *. cbn. rewrite Hnone. cbn. lia.
    + intros [|i] creds' res'; [done|]. cbn. intros Hi. exfalso.
      assert ((creds', res') ∈ tokenCalls loop) as Hin.
      { unfold tokenCalls. apply list_elem_of_omap.
        exists (EvToken creds' res'). split; [|done].
        by eapply list_elem_of_lookup_2. }
      rewrite Hnone in Hin. by apply elem_of_nil in Hin.
    + intros _. exists creds, tok. split; [done|].
      change (requests (EvToken creds (inr tok) :: loop)) with (requests loop).
      destruct (loopTrace_requests _ _ _ _ _ _ _ _ Hloop) as [_ Hall].
      apply Forall2_Forall_r with (Q := fun req =>
        Request_Header req
        = [("Authorization", "Bearer " +:+ tok);
           ("Content-Type", "application/json")]) in Hall; [done|].
      apply Forall_forall. intros token _ req (left & js & _ & ->). done.
Qed.


(** X8: a validated message whose [Data] holds a value that does not
    encode is found out only after the token exchange, and before any
    request: [Send] hands the encoder's error on, in the state the
    exchange left. *)
Theorem Send_unencodable_data c m acsJsonData st accessToken st1 err :
  validate (Some m) = None ->
  getAcsessToken acsJsonData st = ((Some accessToken, None), st1) ->
  encodeData (Message_Data m) = inl err ->
  Send c (Some m) acsJsonData st = (Returned None (Some (LibError err)), st1)
  /\ requests (st_trace st1) = requests (st_trace st).
Proof.
  intros Hv Htok Hd. split.
  - unfold Send, send, run. rewrite Hv, Htok. cbn [deref bind ret].
    pose proof (validate_None_targets _ Hv) as Hne.
    destruct (elems (Message_RegistrationIDs m)) as [|token ids]; [done|].
    unfold bind at 1.
    by rewrite sendLoop_cons, (encodeWrappedMessage_error _ _ _ Hd).
  - destruct (getAcsessToken_trace _ _ _ _ Htok) as (pre & -> & Hreq & _).
    unfold requests in *. by rewrite omap_app, Hreq, app_nil_r.
Qed.

(** The loop reads the client's URL and transport, nothing else of it. *)
Lemma sendLoop_same_endpoint c c' msg acsToken ids :
  Client_URL c = Client_URL c' ->
  Client_Http c = Client_Http c' ->
  forall buf responses st,
    sendLoop c msg acsToken ids buf responses st
    = sendLoop c' msg acsToken ids buf responses st.
Proof.
  intros Hurl Hhttp.
  induction ids as [|token ids IH]; intros buf responses st; [done|].
  cbn [sendLoop]. unfold bind, Encode, http_NewRequest, Do, bufAfter.
  rewrite Hurl, Hhttp.
  repeat (case_match; try done).
Qed.

(** X9: [Send] never reads the client's API key: two clients with the
    same URL and the same transport behave alike, state for state. *)
Theorem Send_ignores_ApiKey c c' msg acsJsonData st :
  Client_URL c = Client_URL c' ->
  Client_Http c = Client_Http c' ->
  Send c msg acsJsonData st = Send c' msg acsJsonData st.
Proof.
  intros Hurl Hhttp. unfold Send, send, run.
  destruct (validate msg); [done|].
  destruct (getAcsessToken acsJsonData st) as [[acsToken [err|]] st1];
    [done|].
  destruct msg as [m|]; [|done]. cbn [deref bind ret].
  unfold bind at 1 3.
  by rewrite (sendLoop_same_endpoint c c' m acsToken _ Hurl Hhttp).
Qed.

(** X10: called without validation, and with a token in hand, [send]
    panics exactly when the message pointer is nil or the message has no
    registration ID; validation is what keeps [Send] from it. *)
Theorem send_panics_iff c msg acsJsonData st accessToken st1 :
  getAcsessToken acsJsonData st = ((Some accessToken, None), st1) ->
  (send c msg acsJsonData st).1 = Panicked
  <-> msg = None
      \/ exists m, msg = Some m /\ elems (Message_RegistrationIDs m) = [].
Proof.
  intros Htok. split.
  - destruct msg as [m|]; [|by left]. intros Hp. right. exists m.
    split; [done|].
    destruct (send c (Some m) acsJsonData st) as [out st'] eqn:Hrun.
    cbn in Hp. subst out.
    destruct (send_with_token _ _ _ _ _ _ _ _ Htok Hrun)
      as (evs & fl & _ & Hloop & Hfin).
    destruct fl as [all|o].
    + destruct (loopTrace_Next _ _ _ _ _ _ _ _ Hloop all eq_refl)
        as (new & -> & Hnew & Hlen).
      destruct new as [|r new]; [|done].
      apply Forall2_length in Hnew. apply loopTrace_replies in Hloop.
      rewrite Hloop, Hlen in Hnew. by destruct (elems _).
    + destruct (loopTrace_Leave _ _ _ _ _ _ _ _ Hloop o eq_refl) as [err ->].
      done.
  - intros [->|(m & -> & Hnil)]; unfold send, run; rewrite Htok; [done|].
    cbn [deref bind ret]. by rewrite Hnil.
Qed.

(** X11: [Send] ends well only when every registration ID had its
    request answered with status 200 and a body that decoded: the replies
    of the run are as many as the registration IDs, each delivered, and
    the result handed back is the first of them. *)
Theorem Send_success_all_delivered c m acsJsonData st r err st' evs :
  Send c (Some m) acsJsonData st = (Returned (Some r) err, st') ->
  st_trace st' = st_trace st ++ evs ->
  err = None
  /\ exists rs,
       Forall2 delivered (replies evs) rs
       /\ length rs = length (elems (Message_RegistrationIDs m))
       /\ head rs = Some r.
Proof.
  intros Hrun Htr.
  remember (Returned (Some r) err) as out eqn:Hout.
  destruct (Send_SendRun _ _ _ _ _ _ _ Hrun Htr)
    as [ | | |m' creds tok loop fl [= <-] Hv Hloop]; try done.
  change (replies (EvToken creds (inr tok) :: loop)) with (replies loop).
  destruct fl as [all|o].
  2: { destruct (loopTrace_Leave _ _ _ _ _ _ _ _ Hloop o eq_refl) as [e ->].
       done. }
  destruct (loopTrace_Next _ _ _ _ _ _ _ _ Hloop all eq_refl)
    as (new & -> & Hnew & Hlen).
  destruct new as [|r' new]; [done|]. cbn in Hout. injection Hout as <- <-.
  split; [done|]. exists (r' :: new). split; [done|]. split; [|done].
  apply Forall2_length in Hnew. apply loopTrace_replies in Hloop.
  congruence.
Qed.

(** X12: when the credential blob does not parse, a validated call of
    [Send] ends with the credentials error and has made no call at all,
    not even to the token endpoint: the state is as before. *)
Theorem Send_bad_credentials_no_call c msg acsJsonData st err :
  validate msg = None ->
  google_CredentialsFromJSON acsJsonData firebaseMessagingScope = inl err ->
  Send c msg acsJsonData st
  = (Returned None (Some (ErrCredentials err)), st).
Proof.
  intros Hv Hcreds. unfold Send, send, run, getAcsessToken.
  by rewrite Hv, Hcreds.
Qed.


(** X13: the [MessageV1] built for a registration ID keeps every field of
    the message but the list of registration IDs: two messages with the
    same list that give the same [MessageV1] are the same message. *)
Theorem translate_keeps_fields m m' token token' :
  translate m token = translate m' token' ->
  Message_RegistrationIDs m = Message_RegistrationIDs m' ->
  m = m' /\ token = token'.
Proof.
  destruct m as [ids ck [ti bo ca tg] da dw ttl pr rp dr],
           m' as [ids' ck' [ti' bo' ca' tg'] da' dw' ttl' pr' rp' dr'].
  unfold translate. cbn. intros [=] ->. by subst.
Qed.

(** On a client whose URL parses, with data that encodes and a server
    that accepts whatever it is sent, the loop runs to its end and
    collects one result per registration ID. *)
Lemma sendLoop_accepting c m accessToken d ids :
  url_Parse (Client_URL c) = None ->
  encodeData (Message_Data m) = inr d ->
  (forall req w, exists resp w' r,
      Client_Http c req w = (inr resp, w')
      /\ Response_StatusCode resp = http_StatusOK
      /\ json_Decode (Response_Body resp) = inr r) ->
  forall buf responses st,
    exists new st',
      sendLoop c m (Some accessToken) ids buf responses st
      = (Next (responses ++ new), st')
      /\ length new = length ids.
Proof.
  intros Hurl Hd Hserver.
  induction ids as [|token ids IH]; intros buf responses st.
  - exists [], st. by rewrite app_nil_r.
  - rewrite sendLoop_cons.
    destruct (encodeWrappedMessage_ok m token d Hd) as [js ->].
    rewrite Hurl. cbv zeta.
    destruct (Hserver
                {| Request_Method := "POST"; Request_URL := Client_URL c;
                   Request_Header :=
                     [("Authorization", "Bearer " +:+ accessToken);
                      ("Content-Type", "application/json")];
                   Request_Body :=
                     buf +:+ js +:+ String (ascii_of_N 10) "" |}
                (st_world st))
      as (resp & w' & r & -> & Hcode & Hdec).
    rewrite Hcode, Z.eqb_refl, Hdec.
    edestruct (IH (unread w'
                     (buf +:+ js +:+ String (ascii_of_N 10) ""))
                 (responses ++ [r])) as (new & st' & Heq & Hlen).
    exists (r :: new), st'. split; [|cbn; by rewrite Hlen].
    cbn [Request_Body]. rewrite Heq. by rewrite <- app_assoc.
Qed.

(** X14: [Send] ends well whenever nothing outside fails: on a validated
    message whose [Data] encodes, with a token in hand, a client URL that
    parses and a server that answers every request with status 200 and a
    body that decodes, it returns a result and a nil error, having made
    exactly one request per registration ID. *)
Theorem Send_succeeds c m d acsJsonData st accessToken st1 :
  validate (Some m) = None ->
  getAcsessToken acsJsonData st = ((Some accessToken, None), st1) ->
  url_Parse (Client_URL c) = None ->
  encodeData (Message_Data m) = inr d ->
  (forall req w, exists resp w' r,
      Client_Http c req w = (inr resp, w')
      /\ Response_StatusCode resp = http_StatusOK
      /\ json_Decode (Response_Body resp) = inr r) ->
  exists r st' evs,
    Send c (Some m) acsJsonData st = (Returned (Some r) None, st')
    /\ st_trace st' = st_trace st ++ evs
    /\ length (requests evs) = length (elems (Message_RegistrationIDs m)).
Proof.
  intros Hv Htok Hurl Hd Hserver.
  destruct (sendLoop_accepting c m accessToken d
              (elems (Message_RegistrationIDs m)) Hurl Hd Hserver "" [] st1)
    as (new & st' & Hloop & Hlen).
  pose proof (validate_None_targets _ Hv) as Hne.
  destruct new as [|r new]; [by destruct (elems _)|].
  assert (Send c (Some m) acsJsonData st = (Returned (Some r) None, st'))
    as Hrun.
  { unfold Send, send, run. rewrite Hv, Htok. cbn [deref bind ret].
    unfold bind at 1. by rewrite Hloop. }
  destruct (Send_with_token _ _ _ _ _ _ _ _ Hv Htok Hrun)
    as (loop & fl & Htr & Htrace & Hfin).
  destruct (getAcsessToken_trace _ _ _ _ Htok) as (pre & Hpre & Hreq & _).
  exists r, st', (pre ++ loop).
  split; [done|]. split; [by rewrite Htr, Hpre, <- app_assoc|].
  rewrite (requests_app _ _ Hreq).
  destruct (loopTrace_requests _ _ _ _ _ _ _ _ Htrace) as [-> _].
  destruct fl as [all|o].
  - by destruct (loopTrace_Next _ _ _ _ _ _ _ _ Htrace all eq_refl)
      as (? & _ & _ & ?).
  - destruct (loopTrace_Leave _ _ _ _ _ _ _ _ Htrace o eq_refl) as [e ->].
    done.
Qed.

End Further.

(** ** The further properties at work *)

Section FurtherWitnesses.
#[local] Existing Instance scripted.

(** A URL that parses and a key: a client; a URL and no key: the key
    error. *)
Lemma NewClient_client_iff_witness :
  (exists c, NewClient accepting FCMSendEndpoint "key" = (Some c, None))
  /\ NewClient accepting FCMSendEndpoint "" = (None, Some ErrMissingAPIKey).
Proof.
  split.
  - apply (proj1 (NewClient_client_iff accepting FCMSendEndpoint "key")).
    repeat split; discriminate.
  - apply (proj2 (proj2 (proj2
             (NewClient_client_iff accepting FCMSendEndpoint "key")))).
    discriminate.
Defined.

(** The scenario on a client from [NewClient]. *)
Lemma NewClient_Send_reaches_network_witness :
  let run :=
    Send (clientOf accepting) (Some scenarioMessage) serviceAccount start in
  exists token req,
    head ["tok1"] = Some token
    /\ head (requests (st_trace run.2)) = Some req
    /\ requestFor (clientOf accepting) scenarioMessage "ya29.token" token req
    /\ Request_URL req = FCMSendEndpoint.
Proof.
  intros run.
  apply (NewClient_Send_reaches_network accepting FCMSendEndpoint "key"
           (clientOf accepting) scenarioMessage "{}" serviceAccount start
           "ya29.token" (afterToken serviceAccount (inr "ya29.token"))
           run.1 run.2 (st_trace run.2)); reflexivity.
Defined.

(** One registration ID passes; none named does not. *)
Lemma NewMessage_validate_witness :
  validate (Some (NewMessage ∅ (Some ["A"]))) = None
  /\ validate (Some (NewMessage ∅ None)) = Some ErrNilRegistrationIDs.
Proof.
  split.
  - apply (proj1 (NewMessage_validate ∅ (Some ["A"]))). split; discriminate.
  - apply (proj1 (proj2 (NewMessage_validate ∅ None))). reflexivity.
Defined.

(** The connection breaks at the second of three requests; and the
    second of three answers is no JSON. *)
Lemma Send_stops_at_failed_exchange_witness :
  let m := messageTo (Some ["A"; "B"; "C"]) in
  let dropped := Send (clientOf (dropping 2)) (Some m) serviceAccount start in
  let garbled := Send (clientOf (garbling 2)) (Some m) serviceAccount start in
  (dropped.1 = Returned None (Some (LibError "connection reset by peer"))
   /\ length (requests (st_trace dropped.2)) = 2%nat)
  /\ (garbled.1
      = Returned None
          (Some (LibError "invalid character looking for beginning of value"))
      /\ length (requests (st_trace garbled.2)) = 2%nat).
Proof.
  intros m dropped garbled. split.
  - apply (Send_stops_at_failed_exchange (clientOf (dropping 2)) m
             serviceAccount start dropped.1 dropped.2 (st_trace dropped.2)
             1%nat (inl "connection reset by peer")
             "connection reset by peer");
      [reflexivity | reflexivity | reflexivity | by left].
  - apply (Send_stops_at_failed_exchange (clientOf (garbling 2)) m
             serviceAccount start garbled.1 garbled.2 (st_trace garbled.2)
             1%nat
             (inr {| Response_StatusCode := 200; Response_Status := "200 OK";
                     Response_Body := "<html>" |})
             "invalid character looking for beginning of value");
      [reflexivity | reflexivity | reflexivity |].
    right. eexists. repeat split; reflexivity.
Defined.

(** The second of three requests is refused: the first had been
    delivered. *)
Lemma Send_earlier_replies_delivered_witness :
  exists r, delivered (inr firstReply) r.
Proof.
  pose (m := messageTo (Some ["A"; "B"; "C"])).
  pose (run := Send (clientOf (refusing 2)) (Some m) serviceAccount start).
  apply (Send_earlier_replies_delivered (clientOf (refusing 2)) (Some m)
           serviceAccount start run.1 run.2 (st_trace run.2) 0%nat
           (inr firstReply)).
  - reflexivity.
  - reflexivity.
  - reflexivity.
  - exact (le_n 2).
Defined.

(** The second of three requests is refused: two requests, for ["A"] and
    ["B"]. *)
Lemma Send_requests_prefix_witness :
  let c := clientOf (refusing 2) in
  let m := messageTo (Some ["A"; "B"; "C"]) in
  let run := Send c (Some m) serviceAccount start in
  (length (requests (st_trace run.2)) <= 3)%nat
  /\ exists accessToken,
       Forall2
         (fun token req =>
            exists left, requestWith c m accessToken left token req)
         (take (length (requests (st_trace run.2))) ["A"; "B"; "C"])
         (requests (st_trace run.2))
       /\ Forall2 (requestFor c m accessToken)
            (take (length (requests (st_trace run.2))) ["A"; "B"; "C"])
            (requests (st_trace run.2)).
Proof.
  intros c m run.
  destruct (Send_requests_prefix c m serviceAccount start run.1 run.2
              (st_trace run.2) eq_refl eq_refl)
    as (Hlen & tok & Hwith & Hfor).
  split; [exact Hlen|]. exists tok. split; [exact Hwith|].
  exact (Hfor scripted_readsBodies).
Defined.

(** The scenario: one exchange, first of all. *)
Lemma Send_one_token_exchange_witness :
  let run :=
    Send (clientOf accepting) (Some scenarioMessage) serviceAccount start in
  (length (tokenCalls (st_trace run.2)) <= 1)%nat
  /\ (forall i creds res,
        st_trace run.2 !! i = Some (EvToken creds res) -> i = 0%nat)
  /\ (requests (st_trace run.2) <> [] ->
      exists creds accessToken,
        head (st_trace run.2) = Some (EvToken creds (inr accessToken))
        /\ Forall (fun req =>
                     Request_Header req
                     = [("Authorization", "Bearer " +:+ accessToken);
                        ("Content-Type", "application/json")])
             (requests (st_trace run.2))).
Proof.
  intros run.
  apply (Send_one_token_exchange (clientOf accepting) (Some scenarioMessage)
           serviceAccount start run.1 run.2 (st_trace run.2)); reflexivity.
Defined.

(** The same server under two API keys. *)
Lemma Send_ignores_ApiKey_witness :
  Send (clientWithKey "key" accepting) (Some scenarioMessage) serviceAccount
    start
  = Send (clientWithKey "another" accepting) (Some scenarioMessage)
      serviceAccount start.
Proof.
  apply (Send_ignores_ApiKey (clientWithKey "key" accepting)
           (clientWithKey "another" accepting)); reflexivity.
Defined.

(** An empty list of registration IDs, and no validation. *)
Lemma send_panics_iff_witness :
  (send (clientOf accepting) (Some (messageTo (Some []))) serviceAccount
     start).1 = Panicked.
Proof.
  apply (proj2 (send_panics_iff (clientOf accepting)
                  (Some (messageTo (Some []))) serviceAccount start
                  "ya29.token" (afterToken serviceAccount (inr "ya29.token"))
                  eq_refl)).
  right. by exists (messageTo (Some [])).
Defined.

(** Two registration IDs, both accepted. *)
Lemma Send_success_all_delivered_witness :
  let m := messageTo (Some ["A"; "B"]) in
  let run := Send (clientOf accepting) (Some m) serviceAccount start in
  @None error = None
  /\ exists rs,
       Forall2 delivered (replies (st_trace run.2)) rs
       /\ length rs = 2%nat
       /\ head rs = Some (messageName 1).
Proof.
  intros m run.
  apply (Send_success_all_delivered (clientOf accepting) m serviceAccount
           start (messageName 1) None run.2 (st_trace run.2)); reflexivity.
Defined.

(** A blob that is no JSON. *)
Lemma Send_bad_credentials_no_call_witness :
  Send (clientOf accepting) (Some scenarioMessage) "service account" start
  = (Returned None
       (Some (ErrCredentials
                "invalid character looking for beginning of value")),
     start).
Proof.
  apply (Send_bad_credentials_no_call (clientOf accepting)
           (Some scenarioMessage) "service account" start); reflexivity.
Defined.

(** The scenario's message, twice. *)
Lemma translate_keeps_fields_witness :
  scenarioMessage = scenarioMessage /\ "tok1" = "tok1".
Proof.
  apply (translate_keeps_fields scenarioMessage scenarioMessage "tok1" "tok1");
    reflexivity.
Defined.

(** Three registration IDs on the accepting server. *)
Lemma Send_succeeds_witness :
  let m := messageTo (Some ["A"; "B"; "C"]) in
  exists r st' evs,
    Send (clientOf accepting) (Some m) serviceAccount start
    = (Returned (Some r) None, st')
    /\ st_trace st' = st_trace start ++ evs
    /\ length (requests evs) = 3%nat.
Proof.
  intros m.
  apply (Send_succeeds (clientOf accepting) m "{}" serviceAccount start
           "ya29.token" (afterToken serviceAccount (inr "ya29.token")));
    try reflexivity.
  intros req w. eexists _, _, _. repeat split; reflexivity.
Defined.

End FurtherWitnesses.

Section StrictWitnesses.
#[local] Existing Instance scriptedStrict.

(** A channel among the data: the encoder's error, after the exchange and
    before any request. *)
Lemma Send_unencodable_data_witness :
  Send clientStrict (Some messageWithChannel) serviceAccount startStrict
  = (Returned None (Some (LibError "json: unsupported type: chan int")),
     afterTokenStrict)
  /\ requests (st_trace afterTokenStrict) = requests (st_trace startStrict).
Proof.
  apply (Send_unencodable_data clientStrict messageWithChannel serviceAccount
           startStrict "ya29.token" afterTokenStrict
           "json: unsupported type: chan int"); reflexivity.
Defined.

End StrictWitnesses.
